(** * FORT validator: TAL validation pipeline and RTR PDU handling

    A shallow embedding of [src/object/tal.c] and [src/rtr/pdu_handler.c].

    Conventions used throughout:
    - a C [int] is a [Z]; an error return is the integer itself, zero meaning
      success, exactly as the C code tests it with [if (error)].  The TAL
      parser alone returns an error type, one constructor for each place
      where it fails, so that the message it logs can be named; the
      integer behind each is given by [Tal.errno_of];
    - a C string is a [string]: the characters before the terminating NUL;
    - state that the C code mutates through pointers is passed explicitly,
      and what it does to the outside (PDUs written, tables and URIs
      created and released, threads joined) is kept in a log;
    - [pr_crit] and [err] do not return: they are outcomes of their own;
    - a pointer to a structure that has been handed to [free] is kept apart
      from a live one, and using it is an outcome of its own as well;
    - functions whose body is not part of the two translation units are
      either section variables or small definitions marked as modelled. *)

From Equations Require Import Equations.
From Stdlib Require Import ZArith List String Ascii Bool Lia Permutation.
Import ListNotations.

Set Implicit Arguments.
Open Scope Z_scope.

(** ** errno values and the sign helper of [common.h] *)

Module Errno.

Definition ENOENT : Z := 2.
Definition EINTR : Z := 4.
Definition EINVAL : Z := 22.

(** [#define ENSURE_NEGATIVE(error) (((error) < 0) ? (error) : -(error))] *)
Definition ENSURE_NEGATIVE (error : Z) : Z :=
  if error <? 0 then error else - error.

Lemma ENSURE_NEGATIVE_nonzero (error : Z) :
  error <> 0 -> ENSURE_NEGATIVE error <> 0.
Proof. unfold ENSURE_NEGATIVE; destruct (Z.ltb_spec error 0); lia. Qed.

End Errno.

(** ** RTR PDU handler ([src/rtr/pdu_handler.c]) *)

Module Rtr.
Import Errno.

(** The 8-byte PDU header.  [session_id], [reserved] and [error_code] share
    the same 16 bits. *)
Record pdu_header := mk_pdu_header {
  protocol_version : Z;
  pdu_type : Z;
  session_id : Z;
  length : Z
}.

Definition error_code (h : pdu_header) : Z := session_id h.

Record serial_query_pdu := mk_serial_query {
  sq_header : pdu_header;
  serial_number : Z
}.

Record reset_query_pdu := mk_reset_query { rq_header : pdu_header }.

Record error_report_pdu := mk_error_report {
  er_header : pdu_header;
  error_message : option string
}.

(** Modelled from the spec: the PDU type codes of the RTR wire protocol
    (RFC 6810 / RFC 8210), declared in the absent [pdu.h]. *)
Definition PDU_TYPE_SERIAL_NOTIFY : Z := 0.
Definition PDU_TYPE_SERIAL_QUERY : Z := 1.
Definition PDU_TYPE_RESET_QUERY : Z := 2.
Definition PDU_TYPE_CACHE_RESPONSE : Z := 3.
Definition PDU_TYPE_IPV4_PREFIX : Z := 4.
Definition PDU_TYPE_IPV6_PREFIX : Z := 6.
Definition PDU_TYPE_END_OF_DATA : Z := 7.
Definition PDU_TYPE_CACHE_RESET : Z := 8.
Definition PDU_TYPE_ROUTER_KEY : Z := 9.
Definition PDU_TYPE_ERROR_REPORT : Z := 10.

(** Modelled from the spec: the Error Report codes of RFC 8210 section 10,
    declared in the absent [err_pdu.h]. *)
Definition ERR_PDU_CORRUPT_DATA : Z := 0.
Definition ERR_PDU_INTERNAL_ERROR : Z := 1.
Definition ERR_PDU_NO_DATA_AVAILABLE : Z := 2.
Definition ERR_PDU_INVALID_REQUEST : Z := 3.
Definition ERR_PDU_UNSUP_PROTO_VERSION : Z := 4.
Definition ERR_PDU_UNSUP_PDU_TYPE : Z := 5.
Definition ERR_PDU_WITHDRAWAL_UNKNOWN : Z := 6.
Definition ERR_PDU_DUPLICATE_ANNOUNCE : Z := 7.
Definition ERR_PDU_UNEXPECTED_PROTO_VERSION : Z := 8.

(** Modelled from the spec: [err_pdu_is_fatal] of the absent [err_pdu.c].
    Every code is fatal except No Data Available. *)
Definition err_pdu_is_fatal (code : Z) : bool :=
  negb (code =? ERR_PDU_NO_DATA_AVAILABLE).

(** The answers of the delta store to a status lookup. *)
Inductive delta_status :=
| NO_DATA_AVAILABLE
| DIFF_UNDETERMINED
| DIFF_AVAILABLE
| NO_DIFF.

(** [struct sender_common], filled by [init_sender_common]. *)
Record sender_common := mk_sender_common {
  sc_fd : Z;
  sc_version : Z;
  sc_session_id : Z;
  sc_start_serial : option Z;
  sc_end_serial : Z
}.

Definition init_sender_common (fd version session : Z)
    (start_serial : option Z) (end_serial : Z) : sender_common :=
  mk_sender_common fd version session start_serial end_serial.

(** How a handler ends: it returns an [int] to its caller, or the process
    is terminated by [err(3)] with the given exit status. *)
Inductive result :=
| Return (code : Z)
| Exit (status : Z).


Section Server.

(** The validated payload records served as Payload PDUs. *)
Variable vrp : Type.

(** Outbound PDUs, in the form the handler hands them to the sender. *)
Inductive out_pdu :=
| CacheResponse (common : sender_common)
| Payload (common : sender_common) (v : vrp)
| EndOfData (common : sender_common)
| CacheReset (common : sender_common)
| ErrorReport (version : Z) (code : Z) (offending : option pdu_header)
    (message : option string).

(** What can be observed on one connection: the PDUs handed to the socket in
    order, whether the socket has been closed, and the status lookups made
    on the delta store. *)
Record session := mk_session {
  outbox : list out_pdu;
  closed : bool;
  lookups : list (option Z)
}.

Definition fresh_session : session := mk_session [] false [].

(** The delta store and the socket are external collaborators. *)
Variable get_current_session_id : Z -> Z.
Variable get_last_serial_number : Z.
Variable db_status : option Z -> delta_status.
Variable payloads : sender_common -> list vrp.
(** The [int] a sender gets back from writing a PDU, given what has been
    written before. *)
Variable write_status : list out_pdu -> out_pdu -> Z.

Definition send (p : out_pdu) (s : session) : Z * session :=
  (write_status (outbox s) p,
   mk_session (outbox s ++ [p]) (closed s) (lookups s)).

Definition close (s : session) : session :=
  mk_session (outbox s) true (lookups s).

(** [deltas_db_status(serial)]: the lookup is recorded. *)
Definition deltas_db_status (serial : option Z) (s : session)
  : delta_status * session :=
  (db_status serial,
   mk_session (outbox s) (closed s) (lookups s ++ [serial])).

(** Modelled from the spec: the senders of the absent [pdu_sender.c].  Each
    one serializes one PDU built from the common sender data and reports
    the status of the write. *)
Definition send_cache_response_pdu (common : sender_common) :=
  send (CacheResponse common).

Definition send_end_of_data_pdu (common : sender_common) :=
  send (EndOfData common).

Definition send_cache_reset_pdu (common : sender_common) :=
  send (CacheReset common).

Fixpoint send_each (ps : list out_pdu) (s : session) : Z * session :=
  match ps with
  | [] => (0, s)
  | p :: ps' =>
      let (error, s') := send p s in
      if error =? 0 then send_each ps' s' else (error, s')
  end.

(** Modelled from the spec: [send_payload_pdus] emits one Payload PDU per
    record of the snapshot, stopping at the first write that fails. *)
Definition send_payload_pdus (common : sender_common) :=
  send_each (map (Payload common) (payloads common)).

(** Modelled from the spec: [err_pdu_send] of the absent [err_pdu.c] sends
    one Error Report and closes the connection when the code is fatal, the
    way [handle_error_report_pdu] below does for inbound reports. *)
Definition err_pdu_send (fd version code : Z) (offending : option pdu_header)
    (message : option string) (s : session) : Z * session :=
  let (error, s1) := send (ErrorReport version code offending message) s in
  (error, if err_pdu_is_fatal code then close s1 else s1).

Definition returning (r : Z * session) : result * session :=
  (Return (fst r), snd r).

Definition warn_unexpected_pdu (fd : Z) (pdu : pdu_header)
    (pdu_name : string) (s : session) : result * session :=
  let (_, s1) :=
    err_pdu_send fd (protocol_version pdu) ERR_PDU_UNSUP_PDU_TYPE (Some pdu)
      (Some "Unexpected PDU received"%string) s in
  (Return (- EINVAL), s1).

Definition handle_serial_notify_pdu (fd : Z) (pdu : pdu_header) :=
  warn_unexpected_pdu fd pdu "Serial Notify".

Definition send_commmon_exchange (common : sender_common) (s : session)
  : Z * session :=
  let (error, s1) := send_cache_response_pdu common s in
  if negb (error =? 0) then (error, s1) else
  let (error, s2) := send_payload_pdus common s1 in
  if negb (error =? 0) then (error, s2) else
  send_end_of_data_pdu common s2.

(** The [default:] branch of the switch is left out: the four cases cover
    the enumeration. *)
Definition handle_serial_query_pdu (fd : Z) (received : serial_query_pdu)
    (s : session) : result * session :=
  let version := protocol_version (sq_header received) in
  let session_id' := get_current_session_id version in
  if negb (session_id (sq_header received) =? session_id') then
    returning (err_pdu_send fd version ERR_PDU_CORRUPT_DATA None None s)
  else
    let current_serial := get_last_serial_number in
    let common :=
      init_sender_common fd version session_id'
        (Some (serial_number received)) current_serial in
    let (updates, s1) := deltas_db_status (sc_start_serial common) s in
    match updates with
    | NO_DATA_AVAILABLE =>
        returning
          (err_pdu_send fd version ERR_PDU_NO_DATA_AVAILABLE None None s1)
    | DIFF_UNDETERMINED => returning (send_cache_reset_pdu common s1)
    | DIFF_AVAILABLE => returning (send_cache_reset_pdu common s1)
    | NO_DIFF =>
        let (error, s2) := send_cache_response_pdu common s1 in
        if negb (error =? 0) then (Return error, s2)
        else returning (send_end_of_data_pdu common s2)
    end.

(** Here the [default:] branch takes [NO_DIFF] and [DIFF_UNDETERMINED];
    [err] ends the process, so the [return] after it is never reached. *)
Definition handle_reset_query_pdu (fd : Z) (received : reset_query_pdu)
    (s : session) : result * session :=
  let version := protocol_version (rq_header received) in
  let session_id' := get_current_session_id version in
  let current_serial := get_last_serial_number in
  let common :=
    init_sender_common fd version session_id' None current_serial in
  let (updates, s1) := deltas_db_status None s in
  match updates with
  | NO_DATA_AVAILABLE =>
      returning
        (err_pdu_send fd version ERR_PDU_NO_DATA_AVAILABLE None None s1)
  | DIFF_AVAILABLE => returning (send_commmon_exchange common s1)
  | _ => (Exit (- EINVAL), s1)
  end.

Definition handle_cache_response_pdu (fd : Z) (pdu : pdu_header) :=
  warn_unexpected_pdu fd pdu "Cache Response".

Definition handle_ipv4_prefix_pdu (fd : Z) (pdu : pdu_header) :=
  warn_unexpected_pdu fd pdu "IPv4 Prefix".

Definition handle_ipv6_prefix_pdu (fd : Z) (pdu : pdu_header) :=
  warn_unexpected_pdu fd pdu "IPv6 Prefix".

Definition handle_end_of_data_pdu (fd : Z) (pdu : pdu_header) :=
  warn_unexpected_pdu fd pdu "End of Data".

Definition handle_cache_reset_pdu (fd : Z) (pdu : pdu_header) :=
  warn_unexpected_pdu fd pdu "Cache Reset".

Definition handle_error_report_pdu (fd : Z) (received : error_report_pdu)
    (s : session) : result * session :=
  let s1 :=
    if err_pdu_is_fatal (error_code (er_header received)) then close s
    else s in
  (Return 0, s1).

(** The handlers of the PDU types that only a server may send, keyed by the
    type code each one is registered for. *)
Definition server_to_router_handlers
  : list (Z * (Z -> pdu_header -> session -> result * session)) :=
  [ (PDU_TYPE_SERIAL_NOTIFY, handle_serial_notify_pdu);
    (PDU_TYPE_CACHE_RESPONSE, handle_cache_response_pdu);
    (PDU_TYPE_IPV4_PREFIX, handle_ipv4_prefix_pdu);
    (PDU_TYPE_IPV6_PREFIX, handle_ipv6_prefix_pdu);
    (PDU_TYPE_END_OF_DATA, handle_end_of_data_pdu);
    (PDU_TYPE_CACHE_RESET, handle_cache_reset_pdu) ].

(** *** Facts about the senders *)



(** Whatever the writes answer, what [send_each] sends is an initial part
    of the list, and the whole list when it returns 0. *)
Lemma send_each_initial ps :
  forall s,
    closed (snd (send_each ps s)) = closed s /\
    lookups (snd (send_each ps s)) = lookups s /\
    (fst (send_each ps s) = 0 ->
     outbox (snd (send_each ps s)) = outbox s ++ ps) /\
    exists k,
      (k <= List.length ps)%nat /\
      outbox (snd (send_each ps s)) = outbox s ++ firstn k ps.
Proof.
  induction ps as [|p ps IH]; intros s; simpl.
  - split; [reflexivity|]. split; [reflexivity|].
    split; [intros _; now rewrite app_nil_r|].
    exists O. split; [lia|now rewrite app_nil_r].
  - destruct (Z.eqb_spec (write_status (outbox s) p) 0) as [Hw|Hw].
    + destruct (IH (mk_session (outbox s ++ [p]) (closed s) (lookups s)))
        as (Hc & Hl & Hall & k & Hk & Hout).
      simpl in *. split; [exact Hc|]. split; [exact Hl|]. split.
      * intros H0. rewrite (Hall H0), <- app_assoc. reflexivity.
      * exists (S k). split; [lia|].
        rewrite Hout, <- app_assoc. reflexivity.
    + simpl. split; [reflexivity|]. split; [reflexivity|].
      split; [intros H0; contradiction|].
      exists 1%nat. split; [lia|reflexivity].
Qed.

(** The same for the common exchange: a Cache Response, then Payload
    PDUs, then an End of Data, cut short at the first write that fails. *)
Lemma send_commmon_exchange_initial common s :
  let exchange :=
    [CacheResponse common] ++ map (Payload common) (payloads common)
      ++ [EndOfData common] in
  closed (snd (send_commmon_exchange common s)) = closed s /\
  lookups (snd (send_commmon_exchange common s)) = lookups s /\
  exists k,
    (1 <= k)%nat /\
    outbox (snd (send_commmon_exchange common s))
      = outbox s ++ firstn k exchange.
Proof.
  intros exchange. unfold send_commmon_exchange, send_cache_response_pdu,
    send_payload_pdus, send_end_of_data_pdu, send.
  cbv beta iota zeta.
  destruct (Z.eqb_spec (write_status (outbox s) (CacheResponse common)) 0)
    as [Hw|Hw]; simpl negb; cbv iota.
  2: { split; [reflexivity|]. split; [reflexivity|].
       exists 1%nat. split; [lia|reflexivity]. }
  set (s1 := mk_session (outbox s ++ [CacheResponse common]) (closed s)
               (lookups s)).
  destruct (send_each_initial (map (Payload common) (payloads common)) s1)
    as (Hc & Hl & Hall & k & Hk & Hout).
  destruct (send_each (map (Payload common) (payloads common)) s1)
    as [error s2] eqn:Hsend.
  simpl in Hc, Hl, Hall, Hout.
  destruct (Z.eqb_spec error 0) as [He|He]; simpl negb; cbv iota.
  - simpl. split; [exact Hc|]. split; [exact Hl|].
    exists (List.length exchange). split; [subst exchange; simpl; lia|].
    rewrite firstn_all, (Hall He). subst exchange.
    rewrite <- !app_assoc. reflexivity.
  - simpl. split; [exact Hc|]. split; [exact Hl|].
    exists (S k). split; [lia|].
    rewrite Hout. subst exchange. simpl.
    rewrite firstn_app.
    replace (k - List.length (map (Payload common) (payloads common)))%nat
      with O by lia.
    simpl. rewrite app_nil_r, <- app_assoc. reflexivity.
Qed.

Lemma warn_unexpected_pdu_spec fd pdu name s :
  warn_unexpected_pdu fd pdu name s =
    (Return (- EINVAL),
     mk_session
       (outbox s ++
          [ErrorReport (protocol_version pdu) ERR_PDU_UNSUP_PDU_TYPE
             (Some pdu) (Some "Unexpected PDU received"%string)])
       true (lookups s)).
Proof. reflexivity. Qed.

(** *** Serial Query *)

(** C2: a Serial Query whose session id matches the server's and for which
    the delta store answers [DIFF_AVAILABLE] is answered with one Cache
    Reset PDU and nothing else; the handler returns the status of that
    write and leaves the connection as it was. *)
Theorem C2_serial_query_diff_available_sends_cache_reset
    (fd : Z) (received : serial_query_pdu) (s : session) :
  session_id (sq_header received)
    = get_current_session_id (protocol_version (sq_header received)) ->
  db_status (Some (serial_number received)) = DIFF_AVAILABLE ->
  let common :=
    init_sender_common fd (protocol_version (sq_header received))
      (get_current_session_id (protocol_version (sq_header received)))
      (Some (serial_number received)) get_last_serial_number in
  handle_serial_query_pdu fd received s =
    (Return (write_status (outbox s) (CacheReset common)),
     mk_session (outbox s ++ [CacheReset common]) (closed s)
       (lookups s ++ [Some (serial_number received)])).
Proof.
  intros Hsid Hst common. unfold handle_serial_query_pdu.
  rewrite Hsid, Z.eqb_refl. simpl. rewrite Hst. reflexivity.
Qed.

(** C3: a Serial Query whose session id differs from the server's is
    answered with exactly one PDU, an Error Report carrying Corrupt Data;
    the delta store is not looked up and the connection ends up closed. *)
Theorem C3_serial_query_session_mismatch
    (fd : Z) (received : serial_query_pdu) (s : session) :
  session_id (sq_header received)
    <> get_current_session_id (protocol_version (sq_header received)) ->
  let report :=
    ErrorReport (protocol_version (sq_header received)) ERR_PDU_CORRUPT_DATA
      None None in
  handle_serial_query_pdu fd received s =
    (Return (write_status (outbox s) report),
     mk_session (outbox s ++ [report]) true (lookups s)).
Proof.
  intros Hsid report. unfold handle_serial_query_pdu.
  apply Z.eqb_neq in Hsid. rewrite Hsid. reflexivity.
Qed.

(** *** Server-to-router PDUs *)

(** C4: each handler of a server-to-router PDU type (Serial Notify, Cache
    Response, IPv4 Prefix, IPv6 Prefix, End of Data, Cache Reset) sends
    exactly one Error Report with code Unsupported PDU Type (5) that echoes
    the offending header, sends nothing else, and returns -EINVAL. *)
Theorem C4_server_to_router_pdus_rejected :
  map fst server_to_router_handlers = [0; 3; 4; 6; 7; 8] /\
  Forall
    (fun entry =>
       forall (fd : Z) (pdu : pdu_header) (s : session),
         snd entry fd pdu s =
           (Return (- 22),
            mk_session
              (outbox s ++
                 [ErrorReport (protocol_version pdu) 5 (Some pdu)
                    (Some "Unexpected PDU received"%string)])
              true (lookups s)))
    server_to_router_handlers.
Proof.
  split; [reflexivity|].
  unfold server_to_router_handlers.
  repeat constructor; intros; apply warn_unexpected_pdu_spec.
Qed.

(** *** Where an exchange stops *)







(** *** Reset Query *)


(** *** Further properties of the handlers *)


(** X2: a Serial Query for the current serial ([NO_DIFF]) is answered with
    a Cache Response directly followed by an End of Data, without any
    Payload PDU; when the write of the Cache Response fails, its status
    is returned and the End of Data is not sent.  The connection stays as
    it was. *)
Theorem X2_serial_query_no_diff
    (fd : Z) (received : serial_query_pdu) (s : session) :
  session_id (sq_header received)
    = get_current_session_id (protocol_version (sq_header received)) ->
  db_status (Some (serial_number received)) = NO_DIFF ->
  let common :=
    init_sender_common fd (protocol_version (sq_header received))
      (get_current_session_id (protocol_version (sq_header received)))
      (Some (serial_number received)) get_last_serial_number in
  let first_status := write_status (outbox s) (CacheResponse common) in
  let looked := lookups s ++ [Some (serial_number received)] in
  handle_serial_query_pdu fd received s =
    if first_status =? 0
    then
      (Return (write_status (outbox s ++ [CacheResponse common])
                 (EndOfData common)),
       mk_session (outbox s ++ [CacheResponse common; EndOfData common])
         (closed s) looked)
    else
      (Return first_status,
       mk_session (outbox s ++ [CacheResponse common]) (closed s) looked).
Proof.
  intros Hsid Hst common first_status looked.
  unfold handle_serial_query_pdu.
  rewrite Hsid, Z.eqb_refl. simpl. rewrite Hst.
  unfold send_cache_response_pdu, send_end_of_data_pdu, send, returning.
  simpl. fold common. fold first_status.
  destruct (first_status =? 0); simpl; [|reflexivity].
  rewrite <- app_assoc. reflexivity.
Qed.

Definition is_payload (p : out_pdu) : bool :=
  match p with
  | Payload _ _ => true
  | _ => false
  end.

(** X3: whatever the session id and whatever the delta store answers, a
    Serial Query is answered with one or two PDUs, none of them a Payload
    PDU; the delta store is looked up at most once; and the connection is
    closed by the handler exactly when the session id does not match. *)
Theorem X3_serial_query_sends_no_payload
    (fd : Z) (received : serial_query_pdu) (s : session) :
  let run := handle_serial_query_pdu fd received s in
  let mismatch :=
    negb (session_id (sq_header received)
          =? get_current_session_id
               (protocol_version (sq_header received))) in
  (exists code, fst run = Return code) /\
  (exists added,
      outbox (snd run) = outbox s ++ added /\
      (1 <= List.length added <= 2)%nat /\
      forallb (fun p => negb (is_payload p)) added = true) /\
  closed (snd run) = closed s || mismatch /\
  lookups (snd run) =
    lookups s ++
      (if mismatch then [] else [Some (serial_number received)]).
Proof.
  intros run mismatch. subst run mismatch.
  unfold handle_serial_query_pdu.
  destruct (session_id (sq_header received)
            =? get_current_session_id
                 (protocol_version (sq_header received))); simpl.
  2: { split; [eexists; reflexivity|]. split.
       - eexists. split; [reflexivity|]. simpl. split; [lia|reflexivity].
       - rewrite orb_true_r, app_nil_r. split; reflexivity. }
  rewrite orb_false_r.
  destruct (db_status (Some (serial_number received))); simpl.
  1-3: split; [eexists; reflexivity|]; split;
       [eexists; split; [reflexivity|]; simpl; split; [lia|reflexivity]
       |split; reflexivity].
  match goal with
  | |- context [write_status ?tr ?p =? 0] =>
      destruct (write_status tr p =? 0)
  end; simpl.
  - split; [eexists; reflexivity|]. split; [|split; reflexivity].
    exists [CacheResponse
              (init_sender_common fd (protocol_version (sq_header received))
                 (get_current_session_id
                    (protocol_version (sq_header received)))
                 (Some (serial_number received)) get_last_serial_number);
            EndOfData
              (init_sender_common fd (protocol_version (sq_header received))
                 (get_current_session_id
                    (protocol_version (sq_header received)))
                 (Some (serial_number received)) get_last_serial_number)].
    rewrite <- app_assoc. simpl. split; [reflexivity|].
    split; [lia|reflexivity].
  - split; [eexists; reflexivity|]. split; [|split; reflexivity].
    eexists. split; [reflexivity|]. simpl. split; [lia|reflexivity].
Qed.

(** X4: an inbound Error Report is never answered: the handler hands
    nothing to the socket, looks nothing up and returns 0; it closes the
    connection exactly when the reported code is fatal. *)
Theorem X4_error_report_is_not_answered
    (fd : Z) (received : error_report_pdu) (s : session) :
  handle_error_report_pdu fd received s =
    (Return 0,
     mk_session (outbox s)
       (closed s || err_pdu_is_fatal (error_code (er_header received)))
       (lookups s)).
Proof.
  unfold handle_error_report_pdu, close.
  destruct (err_pdu_is_fatal (error_code (er_header received)));
    [rewrite orb_true_r|rewrite orb_false_r; destruct s]; reflexivity.
Qed.

End Server.

(** *** Concrete runs *)

Definition example_header (type session : Z) : pdu_header :=
  mk_pdu_header 1 type session 8.

Definition example_serial_query (session serial : Z) : serial_query_pdu :=
  mk_serial_query (example_header PDU_TYPE_SERIAL_QUERY session) serial.

Definition example_reset_query : reset_query_pdu :=
  mk_reset_query (example_header PDU_TYPE_RESET_QUERY 0).

Lemma C2_witness :
  handle_serial_query_pdu (vrp := nat) (fun _ => 7) 12
    (fun _ => DIFF_AVAILABLE) (fun _ _ => 0)
    5 (example_serial_query 7 10) (fresh_session nat) =
  (Return 0,
   mk_session [CacheReset nat (mk_sender_common 5 1 7 (Some 10) 12)]
     false [Some 10]).
Proof.
  apply (@C2_serial_query_diff_available_sends_cache_reset nat
           (fun _ => 7) 12 (fun _ => DIFF_AVAILABLE) (fun _ _ => 0)
           5 (example_serial_query 7 10) (fresh_session nat));
    reflexivity.
Defined.

Lemma C3_witness :
  handle_serial_query_pdu (vrp := nat) (fun _ => 7) 12
    (fun _ => DIFF_AVAILABLE) (fun _ _ => 0)
    5 (example_serial_query 8 10) (fresh_session nat) =
  (Return 0,
   mk_session [ErrorReport nat 1 0 None None] true []).
Proof.
  apply (@C3_serial_query_session_mismatch nat
           (fun _ => 7) 12 (fun _ => DIFF_AVAILABLE) (fun _ _ => 0)
           5 (example_serial_query 8 10) (fresh_session nat)).
  simpl. lia.
Defined.

(** A connection on which the second write fails. *)
Definition second_write_fails (sent : list (out_pdu nat)) (p : out_pdu nat)
  : Z :=
  if (List.length sent =? 1)%nat then - 32 else 0.

(** The sender data of the answer to [example_reset_query]. *)
Definition example_common : sender_common := mk_sender_common 5 1 7 None 12.



(** The run behind the second part: the write of the first Payload PDU
    fails, its status is returned and nothing follows it. *)
Example reset_query_cut_run :
  handle_reset_query_pdu (vrp := nat) (fun _ => 7) 12
    (fun _ => DIFF_AVAILABLE) (fun _ => [1%nat; 2%nat])
    second_write_fails 5 example_reset_query (fresh_session nat)
  = (Return (- 32),
     mk_session [CacheResponse nat example_common; Payload example_common 1%nat]
       false [None]).
Proof. reflexivity. Qed.


(** The run behind the second part: the Cache Response goes out, the write
    of the first Payload PDU fails, and nothing follows it. *)
Example cut_exchange_run :
  send_commmon_exchange (fun _ => [1%nat; 2%nat]) second_write_fails
    example_common (fresh_session nat)
  = (- 32,
     mk_session
       [CacheResponse nat example_common; Payload example_common 1%nat]
       false []).
Proof. reflexivity. Qed.

Lemma X2_witness :
  handle_serial_query_pdu (vrp := nat) (fun _ => 7) 12
    (fun _ => NO_DIFF) (fun _ _ => 0)
    5 (example_serial_query 7 12) (fresh_session nat) =
  (Return 0,
   let common := mk_sender_common 5 1 7 (Some 12) 12 in
   mk_session [CacheResponse nat common; EndOfData nat common]
     false [Some 12]).
Proof.
  apply (@X2_serial_query_no_diff nat
           (fun _ => 7) 12 (fun _ => NO_DIFF) (fun _ _ => 0)
           5 (example_serial_query 7 12) (fresh_session nat));
    reflexivity.
Defined.

End Rtr.

(** ** TAL parsing ([src/object/tal.c], first half) *)

Module Tal.
Import Errno.

Definition LF : ascii := "010"%char.
Definition CR : ascii := "013"%char.
Definition HASH : ascii := "#"%char.

(** [isspace] in the C locale: space, and the controls from TAB to CR. *)
Definition isspace (c : ascii) : bool :=
  let n := nat_of_ascii c in
  (n =? 32)%nat || ((9 <=? n)%nat && (n <=? 13)%nat).

(** [p + n] on a pointer into a string. *)
Fixpoint advance (n : nat) (str : string) : string :=
  match n, str with
  | O, _ => str
  | S n', String _ rest => advance n' rest
  | S _, EmptyString => EmptyString
  end.

(** [strchr(str, c)] for a character other than NUL: the suffix that starts
    at the first occurrence, if there is one. *)
Fixpoint strchr (str : string) (c : ascii) : option string :=
  match str with
  | EmptyString => None
  | String a rest => if Ascii.eqb a c then Some str else strchr rest c
  end.

(** [str[0] == c], false on the empty string. *)
Definition starts_with_char (c : ascii) (str : string) : bool :=
  match str with
  | String a _ => Ascii.eqb a c
  | EmptyString => false
  end.

(** [find_newline]: the text before the line break and the suffix that
    starts at it (at the CR of a CR LF pair, else at the LF). *)
Fixpoint find_newline (str : string) : option (string * string) :=
  match str with
  | EmptyString => None
  | String c rest =>
      if Ascii.eqb c LF then Some (EmptyString, str)
      else if Ascii.eqb c CR && starts_with_char LF rest
           then Some (EmptyString, str)
      else
        match find_newline rest with
        | Some (line, nl) => Some (String c line, nl)
        | None => None
        end
  end.

Fixpoint is_blank (str : string) : bool :=
  match str with
  | EmptyString => true
  | String c rest => if isspace c then is_blank rest else false
  end.

(** Modelled from the spec: [str_starts_with] of the absent [common.c]. *)
Definition str_starts_with (str pfx : string) : bool := String.prefix pfx str.

(** [strrchr(file_path, '/')] followed by the choice of [tal_init]: the part
    after the last slash, or the whole path. *)
Fixpoint after_last_slash (path : string) : option string :=
  match path with
  | EmptyString => None
  | String c rest =>
      match after_last_slash rest with
      | Some name => Some name
      | None => if Ascii.eqb c "/"%char then Some rest else None
      end
  end.

Inductive uri_type := UT_RSYNC | UT_HTTPS.

(** What the parser needs of a [struct rpki_uri]: its kind, the string it
    was created from and the name of the TAL that owns it. *)
Record rpki_uri := mk_uri {
  uri_tal : string;
  uri_kind : uri_type;
  uri_global : string
}.

Record tal := mk_tal {
  file_name : string;
  uris : list rpki_uri;
  spki : list Byte.byte;
  spki_len : nat;
  cache : option string
}.

(** The ways [tal_init] fails.  The C code returns a non-zero [int] in each
    case; the operational errors are told apart by the message they log. *)
Inductive tal_error :=
| ERR_file_load (code : Z)
| ERR_uri_create (code : Z)
| ERR_non_rsync_https (uri : string)
    (* "TAL has non-RSYNC/HTTPS URI: %s" *)
| ERR_missing_public_key
    (* "The TAL seems to be missing the public key." *)
| ERR_empty_uri_section
    (* "There seems to be an empty/blank line before the end of the URI
       section." *)
| ERR_cannot_decode
    (* "Cannot decode the public key." *)
| ERR_premature (line : string)
    (* "The TAL seems to end prematurely at line '%s'." *).

(** The [int] behind each failure: the code of the failing callee, or what
    [pr_op_err] returns, which is -EINVAL. *)
Definition errno_of (e : tal_error) : Z :=
  match e with
  | ERR_file_load code => code
  | ERR_uri_create code => code
  | _ => - EINVAL
  end.

(** Reference counting of URI objects, as a log: [uri_create] hands out one
    reference, [uri_refput] gives one back. *)
Inductive uri_event :=
| UriCreate (u : rpki_uri)
| UriRefput (u : rpki_uri).

Record pstate := mk_pstate {
  the_tal : tal;
  refs : list uri_event
}.

Definition inspect {A : Type} (a : A) : {b : A | a = b} :=
  exist _ a eq_refl.

Lemma strchr_suffix (str : string) (c : ascii) (nl : string) :
  strchr str c = Some nl ->
  (0 < String.length nl <= String.length str)%nat.
Proof.
  induction str as [|a rest IH]; simpl; [discriminate|].
  destruct (Ascii.eqb a c).
  - intros [= <-]. simpl. lia.
  - intros H. apply IH in H. lia.
Qed.

Lemma find_newline_suffix (str line nl : string) :
  find_newline str = Some (line, nl) ->
  (0 < String.length nl <= String.length str)%nat.
Proof.
  revert line. induction str as [|a rest IH]; simpl; intros line;
    [discriminate|].
  destruct (Ascii.eqb a LF); [intros [= <- <-]; simpl; lia|].
  destruct (Ascii.eqb a CR && starts_with_char LF rest);
    [intros [= <- <-]; simpl; lia|].
  destruct (find_newline rest) as [[l n]|] eqn:E; [|discriminate].
  intros [= <- <-]. specialize (IH _ eq_refl). lia.
Qed.

Lemma advance_length (n : nat) (str : string) :
  String.length (advance n str) = (String.length str - n)%nat.
Proof.
  revert str. induction n as [|n IH]; intros [|a rest]; simpl; auto.
Qed.

(** The comment section of [read_content]: the remaining text, or the
    premature-end failure. *)
Equations? comment_section (fc : string) : tal_error + string
  by wf (String.length fc) lt :=
comment_section fc with inspect (starts_with_char HASH fc) := {
  | exist _ false _ := inr fc
  | exist _ true _ with inspect (strchr fc LF) := {
      | exist _ None _ := inl (ERR_premature fc)
      | exist _ (Some nl) Hnl := comment_section (advance 1 nl) } }.
Proof.
  apply strchr_suffix in Hnl. destruct nl; simpl in *; lia.
Qed.

(** Number of characters of the line break at [nl]: [cr + 1]. *)
Definition break_length (nl : string) : nat :=
  if starts_with_char CR nl then 2%nat else 1%nat.

Ltac inspected :=
  repeat match goal with
         | E : ?lhs = _ |- context [?lhs] => progress rewrite E
         end.

(** *** The layout of a TAL file, as the format describes it

    These definitions do not come from the parser: they say what the lines
    of a file are, so that statements about "the URI block" of an arbitrary
    file can be made and compared with what [read_content] does. *)

(** The pieces between LF characters; the last piece is what follows the
    last LF (empty when the text ends with one). *)
Fixpoint split_lf (s : string) : list string :=
  match s with
  | EmptyString => [EmptyString]
  | String c rest =>
      if Ascii.eqb c LF then EmptyString :: split_lf rest
      else
        match split_lf rest with
        | l :: ls => String c l :: ls
        | [] => [String c EmptyString]
        end
  end.

(** A line without the CR that may precede its LF. *)
Fixpoint strip_cr (l : string) : string :=
  match l with
  | EmptyString => EmptyString
  | String c rest =>
      match rest with
      | EmptyString => if Ascii.eqb c CR then EmptyString else l
      | _ => String c (strip_cr rest)
      end
  end.

Definition text_lines (s : string) : list string :=
  map strip_cr (split_lf s).

Fixpoint drop_comments (ls : list string) : list string :=
  match ls with
  | l :: ls' => if starts_with_char HASH l then drop_comments ls' else ls
  | [] => []
  end.

Fixpoint take_until_blank (ls : list string) : list string :=
  match ls with
  | l :: ls' => if is_blank l then [] else l :: take_until_blank ls'
  | [] => []
  end.

(** The URI block: the lines after the leading comments, up to the first
    blank line, a line being blank when it holds white space only. *)
Definition uri_block (s : string) : list string :=
  take_until_blank (drop_comments (text_lines s)).

(** The text made of the given lines, each ended by LF, followed by
    [rest]. *)
Fixpoint unlines (ls : list string) (rest : string) : string :=
  match ls with
  | [] => rest
  | l :: ls' => l ++ String LF (unlines ls' rest)
  end.

Section Parser.

(** The external collaborators of the parser: the status [uri_create]
    returns, the base64 decoder and the file loader. *)
Variable uri_create_status : string -> uri_type -> string -> Z.
Variable base64_decode : string -> option (list Byte.byte).
Variable file_load : string -> Z * string.

Definition uris_add (u : rpki_uri) (st : pstate) : pstate :=
  let t := the_tal st in
  mk_pstate
    (mk_tal (file_name t) (uris t ++ [u]) (spki t) (spki_len t) (cache t))
    (refs st).

(** [uri_create] followed by the test of its status. *)
Definition uri_create (tal_name : string) (kind : uri_type) (str : string)
    (st : pstate) : Z * rpki_uri * pstate :=
  let new := mk_uri tal_name kind str in
  let error := uri_create_status tal_name kind str in
  if error =? 0
  then (0, new, mk_pstate (the_tal st) (refs st ++ [UriCreate new]))
  else (error, new, st).

Definition add_uri (uri : string) (st : pstate)
  : option tal_error * pstate :=
  let name := file_name (the_tal st) in
  let create kind :=
    let '(error, new, st1) := uri_create name kind uri st in
    if negb (error =? 0) then (Some (ERR_uri_create error), st1)
    else (None, uris_add new st1) in
  if str_starts_with uri "rsync://" then create UT_RSYNC
  else if str_starts_with uri "https://" then create UT_HTTPS
  else (Some (ERR_non_rsync_https uri), st).

(** The URI section of [read_content]: the loop ends with a failure, or at
    a blank line with the text that follows it. *)
Equations? uri_section (fc : string) (st : pstate)
  : (tal_error + string) * pstate
  by wf (String.length fc) lt :=
uri_section fc st with inspect (find_newline fc) := {
  | exist _ None _ := (inl (ERR_premature fc), st)
  | exist _ (Some (line, nl)) Hnl with inspect (is_blank line) := {
      | exist _ true _ := (inr (advance (break_length nl) nl), st)
      | exist _ false _ with inspect (add_uri line st) := {
          | exist _ (Some e, st1) _ := (inl e, st1)
          | exist _ (None, st1) _
              with inspect (advance (break_length nl) nl) := {
              | exist _ EmptyString _ := (inl ERR_missing_public_key, st1)
              | exist _ (String c rest) Hfc :=
                  uri_section (String c rest) st1 } } } }.
Proof.
  apply find_newline_suffix in Hnl.
  apply (f_equal String.length) in Hfc. rewrite advance_length in Hfc.
  unfold break_length in Hfc. simpl in Hfc.
  destruct (starts_with_char CR nl); lia.
Qed.

Definition read_content (fc : string) (st : pstate)
  : option tal_error * pstate :=
  match comment_section fc with
  | inl e => (Some e, st)
  | inr fc1 =>
      match uri_section fc1 st with
      | (inl e, st1) => (Some e, st1)
      | (inr b64, st1) =>
          let t := the_tal st1 in
          if (List.length (uris t) =? 0)%nat
          then (Some ERR_empty_uri_section, st1)
          else
            match base64_decode b64 with
            | None => (Some ERR_cannot_decode, st1)
            | Some bytes =>
                (None,
                 mk_pstate
                   (mk_tal (file_name t) (uris t) bytes (List.length bytes)
                      (cache t))
                   (refs st1))
            end
      end
  end.

(** Modelled from the spec: [uris_cleanup] of the absent URI list module
    gives back the reference the list holds on each URI and empties it. *)
Definition uris_cleanup (st : pstate) : pstate :=
  let t := the_tal st in
  mk_pstate
    (mk_tal (file_name t) [] (spki t) (spki_len t) (cache t))
    (refs st ++ map UriRefput (uris t)).

(** [tal_init], on the [struct tal] it is given to fill. *)
Definition tal_init (t : tal) (file_path : string) (log : list uri_event)
  : option tal_error * pstate :=
  let (error, buffer) := file_load file_path in
  if negb (error =? 0) then (Some (ERR_file_load error), mk_pstate t log)
  else
    let name :=
      match after_last_slash file_path with
      | Some name => name
      | None => file_path
      end in
    let t1 := mk_tal name [] (spki t) (spki_len t) (cache t) in
    match read_content buffer (mk_pstate t1 log) with
    | (Some e, st) => (Some e, uris_cleanup st)
    | (None, st) =>
        let t2 := the_tal st in
        (None,
         mk_pstate
           (mk_tal (file_name t2) (uris t2) (spki t2) (spki_len t2)
              (Some name))
           (refs st))
    end.

(** The state after the URIs [new] have been created and added. *)
Definition grown (st : pstate) (new : list rpki_uri) : pstate :=
  let t := the_tal st in
  mk_pstate
    (mk_tal (file_name t) (uris t ++ new) (spki t) (spki_len t) (cache t))
    (refs st ++ map UriCreate new).

(** *** Lines the parser accepts as URIs *)

Definition accepted (name line : string) : bool :=
  if str_starts_with line "rsync://"
  then uri_create_status name UT_RSYNC line =? 0
  else if str_starts_with line "https://"
       then uri_create_status name UT_HTTPS line =? 0
       else false.

Definition uri_of (name line : string) : rpki_uri :=
  mk_uri name
    (if str_starts_with line "rsync://" then UT_RSYNC else UT_HTTPS) line.

Definition uris_of (name : string) (ls : list string) : list rpki_uri :=
  map (fun l => uri_of name (strip_cr l)) ls.

Definition uri_line (name l : string) : Prop :=
  strchr l LF = None /\ accepted name (strip_cr l) = true.

Definition comment_line (l : string) : Prop :=
  strchr l LF = None /\ starts_with_char HASH l = true.

(** *** Strings and lines *)

Lemma comment_section_eq (fc : string) :
  comment_section fc =
    if starts_with_char HASH fc then
      match strchr fc LF with
      | None => inl (ERR_premature fc)
      | Some nl => comment_section (advance 1 nl)
      end
    else inr fc.
Proof.
  funelim (comment_section fc); clear Heqcall; inspected; reflexivity.
Qed.

Lemma comment_section_error (fc : string) (e : tal_error) :
  comment_section fc = inl e -> errno_of e <> 0.
Proof.
  remember (String.length fc) as n eqn:Hn. revert fc Hn.
  induction n as [n IH] using lt_wf_ind. intros fc Hn.
  rewrite comment_section_eq.
  destruct (starts_with_char HASH fc); [|discriminate].
  destruct (strchr fc LF) as [nl|] eqn:Hnl; [|intros [= <-]; discriminate].
  apply (IH (String.length (advance 1 nl))); [|reflexivity].
  apply strchr_suffix in Hnl. rewrite advance_length. lia.
Qed.

Lemma split_lf_cases (s : string) :
  (strchr s LF = None /\ split_lf s = [s]) \/
  (exists l s',
      s = (l ++ String LF s')%string /\ strchr l LF = None /\
      split_lf s = l :: split_lf s').
Proof.
  induction s as [|c rest IH]; simpl.
  - left; split; reflexivity.
  - destruct (Ascii.eqb_spec c LF) as [->|Hc].
    + right. exists EmptyString, rest. repeat split; reflexivity.
    + destruct IH as [[Hn Hs]|(l & s' & -> & Hn & Hs)].
      * left. rewrite Hs. split; [exact Hn|reflexivity].
      * right. exists (String c l), s'. rewrite Hs. simpl.
        destruct (Ascii.eqb_spec c LF); [contradiction|].
        repeat split; assumption.
Qed.

Lemma strchr_app_lf (l s' : string) :
  strchr l LF = None ->
  strchr (l ++ String LF s') LF = Some (String LF s').
Proof.
  induction l as [|c l IH]; simpl; [reflexivity|].
  destruct (Ascii.eqb c LF); [discriminate|exact IH].
Qed.

Lemma find_newline_no_lf (s : string) :
  strchr s LF = None -> find_newline s = None.
Proof.
  induction s as [|c rest IH]; simpl; [reflexivity|].
  destruct (Ascii.eqb c LF); [discriminate|]. intros Hn.
  rewrite (IH Hn).
  destruct rest as [|d rest']; simpl in *.
  - rewrite andb_false_r. reflexivity.
  - destruct (Ascii.eqb d LF); [discriminate|].
    rewrite andb_false_r. reflexivity.
Qed.

Lemma find_newline_app_lf (l s' : string) :
  strchr l LF = None ->
  exists nl,
    find_newline (l ++ String LF s') = Some (strip_cr l, nl) /\
    advance (break_length nl) nl = s'.
Proof.
  induction l as [|c l IH]; simpl; intros Hn.
  - exists (String LF s'). split; reflexivity.
  - destruct (Ascii.eqb_spec c LF) as [|Hc]; [discriminate|].
    destruct (IH Hn) as (nl & Hfind & Hadv).
    destruct l as [|d l'].
    + simpl in *. rewrite andb_true_r.
      destruct (Ascii.eqb_spec c CR) as [->|Hcr].
      * exists (String CR (String LF s')). split; reflexivity.
      * exists (String LF s'). split; reflexivity.
    + simpl in Hn. simpl (starts_with_char _ _).
      destruct (Ascii.eqb d LF) eqn:Hd; [discriminate|].
      rewrite andb_false_r.
      change ((String d l' ++ String LF s')%string)
        with (String d (l' ++ String LF s')) in *.
      rewrite Hfind. exists nl. split; [reflexivity|exact Hadv].
Qed.

Lemma prefix_first (a : ascii) (p s : string) :
  String.prefix (String a p) s = true -> exists rest, s = String a rest.
Proof.
  destruct s as [|b s]; simpl; [discriminate|].
  destruct (Ascii.ascii_dec a b) as [->|]; [eauto|discriminate].
Qed.

Lemma length_app (a b : string) :
  String.length (a ++ b) = (String.length a + String.length b)%nat.
Proof. induction a as [|c a IH]; simpl; [reflexivity|now rewrite IH]. Qed.

Lemma starts_with_char_strip_cr (l : string) :
  starts_with_char HASH (strip_cr l) = starts_with_char HASH l.
Proof.
  destruct l as [|c [|d l']]; simpl; try reflexivity.
  destruct (Ascii.eqb_spec c CR) as [->|]; reflexivity.
Qed.

Lemma starts_with_char_app_lf (l s' : string) :
  starts_with_char HASH (l ++ String LF s') = starts_with_char HASH l.
Proof. destruct l; reflexivity. Qed.

Lemma text_lines_app_lf (l s' : string) :
  strchr l LF = None ->
  text_lines (l ++ String LF s') = strip_cr l :: text_lines s'.
Proof.
  intros Hn. unfold text_lines.
  destruct (split_lf_cases (l ++ String LF s'))
    as [[Hno _]|(l1 & s1 & Heq & Hn1 & Hs)].
  - rewrite (strchr_app_lf _ s' Hn) in Hno. discriminate.
  - rewrite Hs. simpl.
    assert (l1 = l /\ s1 = s') as [-> ->]; [|reflexivity].
    clear Hs. revert l1 Heq Hn1.
    induction l as [|c l IH]; intros [|c1 l1]; simpl; intros Heq Hn1.
    + injection Heq as ->. split; reflexivity.
    + injection Heq as <- _. simpl in Hn1. discriminate.
    + injection Heq as -> _. simpl in Hn.
      destruct (Ascii.eqb LF LF) eqn:E; [discriminate|discriminate E].
    + injection Heq as -> Heq. simpl in Hn.
      destruct (Ascii.eqb c1 LF); [discriminate|].
      destruct (IH Hn _ Heq Hn1) as [-> ->]. split; reflexivity.
Qed.

Lemma comment_section_lines (fc fc1 : string) :
  comment_section fc = inr fc1 ->
  drop_comments (text_lines fc) = text_lines fc1.
Proof.
  remember (String.length fc) as n eqn:Hn. revert fc Hn.
  induction n as [n IH] using lt_wf_ind. intros fc Hn.
  rewrite comment_section_eq.
  destruct (split_lf_cases fc) as [[Hno Hs]|(l & s' & -> & Hno & Hs)].
  - rewrite Hno.
    destruct (starts_with_char HASH fc) eqn:Hh; [discriminate|].
    intros [= <-]. unfold text_lines. rewrite Hs. simpl.
    now rewrite starts_with_char_strip_cr, Hh.
  - rewrite (strchr_app_lf _ s' Hno), starts_with_char_app_lf,
      (text_lines_app_lf _ s' Hno). simpl.
    rewrite starts_with_char_strip_cr.
    destruct (starts_with_char HASH l) eqn:Hh.
    + apply (IH (String.length s')); [|reflexivity].
      rewrite Hn, length_app. simpl. lia.
    + intros [= <-]. now rewrite (text_lines_app_lf _ s' Hno).
Qed.

Lemma unlines_app (a b : list string) (rest : string) :
  unlines (a ++ b) rest = unlines a (unlines b rest).
Proof. induction a as [|l a IH]; simpl; [reflexivity|now rewrite IH]. Qed.

Lemma comment_section_comments (cs : list string) (rest : string) :
  Forall (fun l => strchr l LF = None /\ starts_with_char HASH l = true) cs ->
  comment_section (unlines cs rest) = comment_section rest.
Proof.
  induction cs as [|l cs IH]; intros Hcs; [reflexivity|].
  inversion Hcs as [|? ? [Hno Hh] Hcs']; subst. simpl.
  rewrite comment_section_eq, starts_with_char_app_lf, Hh,
    (strchr_app_lf _ _ Hno).
  simpl. apply IH, Hcs'.
Qed.

(** *** How the URI section proceeds *)

Lemma uri_section_eq (fc : string) (st : pstate) :
  uri_section fc st =
    match find_newline fc with
    | None => (inl (ERR_premature fc), st)
    | Some (line, nl) =>
        if is_blank line then (inr (advance (break_length nl) nl), st)
        else
          match add_uri line st with
          | (Some e, st1) => (inl e, st1)
          | (None, st1) =>
              match advance (break_length nl) nl with
              | EmptyString => (inl ERR_missing_public_key, st1)
              | String c rest => uri_section (String c rest) st1
              end
          end
    end.
Proof.
  funelim (uri_section fc st); clear Heqcall; inspected; reflexivity.
Qed.

Lemma grown_nil (st : pstate) : grown st [] = st.
Proof.
  destruct st as [[n u k kl c] r]. unfold grown; simpl.
  rewrite !app_nil_r. reflexivity.
Qed.

Lemma grown_grown (st : pstate) (a b : list rpki_uri) :
  grown (grown st a) b = grown st (a ++ b).
Proof.
  unfold grown; simpl. rewrite map_app, <- !app_assoc. reflexivity.
Qed.

Lemma add_uri_cases (uri : string) (st : pstate) :
  (exists e, add_uri uri st = (Some e, st) /\ errno_of e <> 0) \/
  (exists u, add_uri uri st = (None, grown st [u])).
Proof.
  unfold add_uri, uri_create.
  destruct (str_starts_with uri "rsync://");
    [|destruct (str_starts_with uri "https://")].
  3: left; eexists; split; [reflexivity|discriminate].
  all: match goal with
       | |- context [uri_create_status ?n ?k ?u] =>
           destruct (Z.eqb_spec (uri_create_status n k u) 0) as [E|E]
       end;
    [right; eexists; reflexivity | ].
  all: left; eexists; split;
    [rewrite (proj2 (Z.eqb_neq _ _) E); reflexivity | exact E].
Qed.

Lemma add_uri_other_scheme (uri : string) (st : pstate) :
  str_starts_with uri "rsync://" = false ->
  str_starts_with uri "https://" = false ->
  add_uri uri st = (Some (ERR_non_rsync_https uri), st).
Proof. unfold add_uri. intros -> ->. reflexivity. Qed.

Lemma uri_section_grows (fc : string) (st : pstate) :
  exists new, snd (uri_section fc st) = grown st new.
Proof.
  remember (String.length fc) as n eqn:Hn. revert fc st Hn.
  induction n as [n IH] using lt_wf_ind. intros fc st Hn.
  rewrite uri_section_eq.
  destruct (find_newline fc) as [[line nl]|] eqn:Hfind;
    [|exists []; simpl; symmetry; apply grown_nil].
  destruct (is_blank line);
    [exists []; simpl; symmetry; apply grown_nil|].
  destruct (add_uri_cases line st) as [(e & -> & _)|[u ->]];
    [exists []; simpl; symmetry; apply grown_nil|].
  destruct (advance (break_length nl) nl) as [|c rest] eqn:Hadv;
    [exists [u]; reflexivity|].
  assert (Hlt : (String.length (String c rest) < n)%nat).
  { rewrite <- Hadv, advance_length. apply find_newline_suffix in Hfind.
    unfold break_length. destruct (starts_with_char CR nl); lia. }
  destruct (IH _ Hlt (String c rest) (grown st [u]) eq_refl) as [new Hnew].
  exists (u :: new). rewrite Hnew, grown_grown. reflexivity.
Qed.

Lemma uri_section_other_scheme (fc : string) (st : pstate) :
  (exists l,
      In l (take_until_blank (text_lines fc)) /\
      str_starts_with l "rsync://" = false /\
      str_starts_with l "https://" = false) ->
  exists e, fst (uri_section fc st) = inl e /\ errno_of e <> 0.
Proof.
  remember (String.length fc) as n eqn:Hn. revert fc st Hn.
  induction n as [n IH] using lt_wf_ind. intros fc st Hn (bad & Hin & Hr & Hh).
  rewrite uri_section_eq.
  destruct (split_lf_cases fc) as [[Hno Hs]|(l & s' & -> & Hno & Hs)].
  - rewrite (find_newline_no_lf _ Hno). eexists; split;
      [reflexivity|discriminate].
  - destruct (find_newline_app_lf _ s' Hno) as (nl & -> & Hadv).
    rewrite (text_lines_app_lf _ s' Hno) in Hin. simpl in Hin.
    destruct (is_blank (strip_cr l)); [contradiction|].
    destruct Hin as [<-|Hin].
    + rewrite add_uri_other_scheme by assumption.
      eexists; split; [reflexivity|discriminate].
    + destruct (add_uri_cases (strip_cr l) st) as [(e & -> & He)|[u ->]];
        [eexists; split; [reflexivity|exact He]|].
      rewrite Hadv.
      destruct s' as [|c rest];
        [eexists; split; [reflexivity|discriminate]|].
      apply (IH (String.length (String c rest))); [|reflexivity|].
      * rewrite Hn, length_app. simpl. lia.
      * exists bad. repeat split; assumption.
Qed.

Lemma add_uri_accepted (line : string) (st : pstate) :
  accepted (file_name (the_tal st)) line = true ->
  add_uri line st = (None, grown st [uri_of (file_name (the_tal st)) line]).
Proof.
  unfold accepted, add_uri, uri_create, uri_of.
  destruct (str_starts_with line "rsync://");
    [|destruct (str_starts_with line "https://"); [|discriminate]];
    intros ->; reflexivity.
Qed.

Lemma accepted_first_char (name line : string) :
  accepted name line = true ->
  exists c rest,
    line = String c rest /\ isspace c = false /\ Ascii.eqb c HASH = false.
Proof.
  unfold accepted, str_starts_with.
  destruct (String.prefix "rsync://" line) eqn:Hr;
    [|destruct (String.prefix "https://" line) eqn:Hh; [|discriminate]];
    intros _.
  - apply prefix_first in Hr as [rest ->]. repeat eexists.
  - apply prefix_first in Hh as [rest ->]. repeat eexists.
Qed.

Lemma uri_line_first (name l : string) :
  uri_line name l ->
  is_blank (strip_cr l) = false /\ starts_with_char HASH l = false.
Proof.
  intros [_ Ha]. rewrite <- (starts_with_char_strip_cr l).
  destruct (accepted_first_char _ _ Ha) as (c & rest & -> & Hs & Hh).
  simpl. rewrite Hs. split; [reflexivity|exact Hh].
Qed.

Lemma grown_file_name (st : pstate) (new : list rpki_uri) :
  file_name (the_tal (grown st new)) = file_name (the_tal st).
Proof. reflexivity. Qed.

(** After the URI lines [us], the loop goes on with what follows them. *)
Lemma uri_section_lines (us : list string) (c : ascii) (rest : string) :
  forall st,
    Forall (uri_line (file_name (the_tal st))) us ->
    uri_section (unlines us (String c rest)) st =
      uri_section (String c rest)
        (grown st (uris_of (file_name (the_tal st)) us)).
Proof.
  induction us as [|u us IH]; intros st Hus; simpl.
  - now rewrite grown_nil.
  - inversion Hus as [|? ? Hu Hus']; subst.
    destruct (uri_line_first Hu) as [Hb _]. destruct Hu as [Hno Ha].
    rewrite uri_section_eq.
    destruct (find_newline_app_lf _ (unlines us (String c rest)) Hno)
      as (nl & -> & ->).
    rewrite Hb, (add_uri_accepted _ _ Ha).
    assert (Hne : exists d r, unlines us (String c rest) = String d r).
    { destruct us as [|u2 us2]; simpl; [eauto|].
      destruct u2; simpl; eauto. }
    destruct Hne as (d & r & Hne). rewrite Hne, <- Hne.
    rewrite IH by exact Hus'.
    rewrite grown_file_name, grown_grown. reflexivity.
Qed.

(** When nothing follows the last URI line, the public key is missing. *)
Lemma uri_section_lines_end (us : list string) :
  forall st,
    us <> [] ->
    Forall (uri_line (file_name (the_tal st))) us ->
    uri_section (unlines us EmptyString) st =
      (inl ERR_missing_public_key,
       grown st (uris_of (file_name (the_tal st)) us)).
Proof.
  induction us as [|u us IH]; intros st Hne Hus; [contradiction|].
  inversion Hus as [|? ? Hu Hus']; subst.
  destruct (uri_line_first Hu) as [Hb _]. destruct Hu as [Hno Ha].
  simpl. rewrite uri_section_eq.
  destruct (find_newline_app_lf _ (unlines us EmptyString) Hno)
    as (nl & -> & ->).
  rewrite Hb, (add_uri_accepted _ _ Ha).
  destruct us as [|u2 us2]; [reflexivity|].
  assert (Hs : exists d r,
             unlines (u2 :: us2) EmptyString = String d r).
  { simpl. destruct u2; simpl; eauto. }
  destruct Hs as (d & r & Hs). rewrite Hs, <- Hs.
  rewrite IH; [|discriminate|exact Hus'].
  rewrite grown_file_name, grown_grown. reflexivity.
Qed.

Lemma uri_section_lines_then (us : list string) (rest : string) :
  forall st,
    rest <> EmptyString ->
    Forall (uri_line (file_name (the_tal st))) us ->
    uri_section (unlines us rest) st =
      uri_section rest (grown st (uris_of (file_name (the_tal st)) us)).
Proof.
  intros st Hne. destruct rest as [|c rest]; [contradiction|].
  apply uri_section_lines.
Qed.

Lemma comment_section_uri_lines (us : list string) (rest : string)
    (name : string) :
  us <> [] -> Forall (uri_line name) us ->
  comment_section (unlines us rest) = inr (unlines us rest).
Proof.
  intros Hne Hus. destruct us as [|u us]; [contradiction|].
  inversion Hus as [|? ? Hu _]; subst.
  destruct (uri_line_first Hu) as [_ Hh].
  rewrite comment_section_eq. simpl.
  now rewrite starts_with_char_app_lf, Hh.
Qed.

(** *** Main results on [tal_init] and [read_content] *)

(** C7, as the code has it: for a TAL file made of comment lines, at least
    one accepted URI line and a blank line, with nothing after it, the
    parser hands the empty remainder to the base64 decoder; parsing fails
    only if the decoder rejects it, and then with "Cannot decode the public
    key".  When the file ends right after its last URI line the failure is
    "The TAL seems to be missing the public key".  Neither is the
    premature-end failure. *)
Theorem C7_file_ending_at_blank_line
    (comments us : list string) (b : string) (st : pstate) :
  Forall comment_line comments ->
  Forall (uri_line (file_name (the_tal st))) us ->
  us <> [] ->
  strchr b LF = None ->
  is_blank (strip_cr b) = true ->
  let st1 := grown st (uris_of (file_name (the_tal st)) us) in
  let t1 := the_tal st1 in
  read_content (unlines (comments ++ us ++ [b]) EmptyString) st =
    match base64_decode EmptyString with
    | None => (Some ERR_cannot_decode, st1)
    | Some bytes =>
        (None,
         mk_pstate
           (mk_tal (file_name t1) (uris t1) bytes (List.length bytes)
              (cache t1))
           (refs st1))
    end
  /\
  read_content (unlines (comments ++ us) EmptyString) st =
    (Some ERR_missing_public_key, st1).
Proof.
  intros Hcs Hus Hne Hno Hb st1 t1. unfold read_content. split.
  - rewrite !unlines_app, (comment_section_comments _ Hcs),
      (comment_section_uri_lines _ Hne Hus).
    rewrite uri_section_lines_then;
      [|simpl; destruct b; discriminate|exact Hus].
    fold st1. simpl (unlines [b] _). rewrite uri_section_eq.
    destruct (find_newline_app_lf _ EmptyString Hno) as (nl & -> & ->).
    rewrite Hb. fold t1.
    assert (Hlen : (List.length (uris t1) =? 0)%nat = false).
    { subst t1 st1. simpl. rewrite List.length_app.
      destruct us; [contradiction|]. simpl. apply Nat.eqb_neq. lia. }
    rewrite Hlen. reflexivity.
  - rewrite unlines_app, (comment_section_comments _ Hcs),
      (comment_section_uri_lines _ Hne Hus).
    rewrite uri_section_lines_end by assumption. reflexivity.
Qed.

(** C8: when the URI block of the loaded TAL file contains a line that
    begins with neither rsync:// nor https://, [tal_init] returns a
    non-zero error, creates no cache handle and leaves no URI behind: every
    URI created on the way has had its reference given back and the list
    is empty. *)
Theorem C8_other_scheme_is_hard_error
    (t : tal) (file_path buffer : string) (log : list uri_event) :
  file_load file_path = (0, buffer) ->
  (exists l,
      In l (uri_block buffer) /\
      str_starts_with l "rsync://" = false /\
      str_starts_with l "https://" = false) ->
  exists e created st,
    tal_init t file_path log = (Some e, st) /\
    errno_of e <> 0 /\
    uris (the_tal st) = [] /\
    cache (the_tal st) = cache t /\
    refs st = log ++ map UriCreate created ++ map UriRefput created.
Proof.
  intros Hload Hbad. unfold tal_init. rewrite Hload. simpl.
  set (name := match after_last_slash file_path with
               | Some n => n
               | None => file_path
               end).
  set (st0 := mk_pstate (mk_tal name [] (spki t) (spki_len t) (cache t)) log).
  unfold read_content.
  destruct (comment_section buffer) as [e|fc1] eqn:Hc.
  - exists e, [], (uris_cleanup st0).
    repeat split; simpl; try now rewrite app_nil_r.
    apply (comment_section_error _ Hc).
  - unfold uri_block in Hbad. rewrite (comment_section_lines _ Hc) in Hbad.
    destruct (uri_section_other_scheme fc1 st0 Hbad) as (e & He & Hne).
    destruct (uri_section_grows fc1 st0) as (created & Hst).
    destruct (uri_section fc1 st0) as [r st1]. simpl in He, Hst. subst.
    exists e, created, (uris_cleanup (grown st0 created)).
    repeat split; simpl; try assumption.
    now rewrite <- app_assoc.
Qed.

(** *** Further properties of the parser *)

(** X6: [find_newline] cuts the text at its first line break: what comes
    before holds no LF, what remains starts with LF or with CR LF, and the
    two parts make up the text; it finds nothing exactly when the text
    holds no LF. *)
Theorem X6_find_newline_first_break (str : string) :
  match find_newline str with
  | Some (line, nl) =>
      str = (line ++ nl)%string /\
      strchr line LF = None /\
      exists rest, nl = String LF rest \/ nl = String CR (String LF rest)
  | None => strchr str LF = None
  end.
Proof.
  induction str as [|c rest IH]; simpl; [reflexivity|].
  destruct (Ascii.eqb_spec c LF) as [->|Hc].
  - split; [reflexivity|]. split; [reflexivity|].
    exists rest. left; reflexivity.
  - destruct (Ascii.eqb_spec c CR) as [->|Hcr]; simpl.
    + destruct rest as [|d rest'] eqn:Hrest; [reflexivity|].
      cbn [starts_with_char].
      destruct (Ascii.eqb_spec d LF) as [->|Hd].
      * split; [reflexivity|]. split; [reflexivity|].
        exists rest'. right; reflexivity.
      * rewrite <- Hrest in *. clear Hrest.
        destruct (find_newline rest) as [[line nl]|]; [|exact IH].
        destruct IH as (Heq & Hno & Hnl). simpl. rewrite <- Heq.
        split; [reflexivity|]. split; assumption.
    + destruct (find_newline rest) as [[line nl]|]; [|exact IH].
      destruct IH as (Heq & Hno & Hnl). simpl.
      destruct (Ascii.eqb_spec c LF); [contradiction|].
      rewrite <- Heq. split; [reflexivity|]. split; assumption.
Qed.

(** The part of the path [tal_init] keeps as the file name. *)
Definition tal_file_name (file_path : string) : string :=
  match after_last_slash file_path with
  | Some name => name
  | None => file_path
  end.

(** X7: the file name kept for a TAL holds no slash, and the path is a
    directory part, empty or ended by a slash, followed by it. *)
Theorem X7_file_name_is_last_component (file_path : string) :
  strchr (tal_file_name file_path) "/"%char = None /\
  exists dir,
    file_path = (dir ++ tal_file_name file_path)%string /\
    (dir = EmptyString \/
     exists d, dir = (d ++ String "/"%char EmptyString)%string).
Proof.
  unfold tal_file_name.
  assert (Hnone : forall p, after_last_slash p = None ->
                            strchr p "/"%char = None).
  { induction p as [|c rest IHp]; simpl; [reflexivity|].
    destruct (after_last_slash rest); [discriminate|].
    destruct (Ascii.eqb c "/"); [discriminate|]. intros _. now apply IHp. }
  assert (Hsome : forall p name, after_last_slash p = Some name ->
            strchr name "/"%char = None /\
            exists d, p = ((d ++ String "/"%char EmptyString) ++ name)%string).
  { induction p as [|c rest IHp]; simpl; intros name Hp; [discriminate|].
    destruct (after_last_slash rest) as [n|] eqn:Hrest.
    - injection Hp as <-. destruct (IHp n eq_refl) as (Hno & d & ->).
      split; [exact Hno|]. exists (String c d). reflexivity.
    - destruct (Ascii.eqb_spec c "/"%char) as [->|]; [|discriminate].
      injection Hp as <-. split; [now apply Hnone|].
      exists EmptyString. reflexivity. }
  destruct (after_last_slash file_path) as [name|] eqn:Hp.
  - destruct (Hsome _ _ Hp) as (Hno & d & Heq). split; [exact Hno|].
    exists (d ++ String "/"%char EmptyString)%string.
    split; [exact Heq|]. right. now exists d.
  - split; [now apply Hnone|]. exists EmptyString.
    split; [reflexivity|now left].
Qed.

(** What [add_uri] guarantees of a URI it stores under the TAL [name]. *)
Definition well_formed (name : string) (u : rpki_uri) : Prop :=
  uri_tal u = name /\
  uri_create_status name (uri_kind u) (uri_global u) = 0 /\
  ((uri_kind u = UT_RSYNC /\
    str_starts_with (uri_global u) "rsync://" = true) \/
   (uri_kind u = UT_HTTPS /\
    str_starts_with (uri_global u) "rsync://" = false /\
    str_starts_with (uri_global u) "https://" = true)).

Lemma add_uri_stored (uri : string) (st : pstate) :
  (exists e, add_uri uri st = (Some e, st) /\ errno_of e <> 0) \/
  (exists u,
      add_uri uri st = (None, grown st [u]) /\
      well_formed (file_name (the_tal st)) u /\ uri_global u = uri).
Proof.
  unfold add_uri, uri_create, well_formed.
  destruct (str_starts_with uri "rsync://") eqn:Hr;
    [|destruct (str_starts_with uri "https://") eqn:Hh].
  3: left; eexists; split; [reflexivity|discriminate].
  all: match goal with
       | |- context [uri_create_status ?n ?k ?u] =>
           destruct (Z.eqb_spec (uri_create_status n k u) 0) as [E|E]
       end.
  - right. eexists. split; [reflexivity|]. simpl. auto 10.
  - left. eexists. split;
      [rewrite (proj2 (Z.eqb_neq _ _) E); reflexivity | exact E].
  - right. eexists. split; [reflexivity|]. simpl. auto 10.
  - left. eexists. split;
      [rewrite (proj2 (Z.eqb_neq _ _) E); reflexivity | exact E].
Qed.

(** The URI section in one statement: the state only grows, by URIs that
    are well formed, and a failure carries a non-zero code. *)
Lemma uri_section_outcome (fc : string) (st : pstate) :
  exists new,
    snd (uri_section fc st) = grown st new /\
    Forall (well_formed (file_name (the_tal st))) new /\
    match fst (uri_section fc st) with
    | inl e => errno_of e <> 0
    | inr _ => True
    end.
Proof.
  remember (String.length fc) as n eqn:Hn. revert fc st Hn.
  induction n as [n IH] using lt_wf_ind. intros fc st Hn.
  rewrite uri_section_eq.
  destruct (find_newline fc) as [[line nl]|] eqn:Hfind.
  2: { exists []. simpl. rewrite grown_nil.
       split; [reflexivity|]. split; [constructor|discriminate]. }
  destruct (is_blank line).
  { exists []. simpl. rewrite grown_nil.
    split; [reflexivity|]. split; [constructor|exact I]. }
  destruct (add_uri_stored line st) as [(e & -> & He)|(u & -> & Hu & _)].
  { exists []. simpl. rewrite grown_nil.
    split; [reflexivity|]. split; [constructor|exact He]. }
  destruct (advance (break_length nl) nl) as [|c rest] eqn:Hadv.
  { exists [u]. simpl. split; [reflexivity|].
    split; [now constructor|discriminate]. }
  assert (Hlt : (String.length (String c rest) < n)%nat).
  { rewrite <- Hadv, advance_length. apply find_newline_suffix in Hfind.
    unfold break_length. destruct (starts_with_char CR nl); lia. }
  destruct (IH _ Hlt (String c rest) (grown st [u]) eq_refl)
    as (new & Hnew & Hwf & Hres).
  exists (u :: new). rewrite Hnew, grown_grown.
  split; [reflexivity|]. split; [|exact Hres].
  constructor; [exact Hu|]. now rewrite grown_file_name in Hwf.
Qed.

(** X8: a text without any LF is refused as ending prematurely, whatever it
    holds, and nothing is stored. *)
Theorem X8_text_without_line_break_is_premature (fc : string) (st : pstate) :
  strchr fc LF = None ->
  read_content fc st = (Some (ERR_premature fc), st).
Proof.
  intros Hno. unfold read_content. rewrite comment_section_eq, Hno.
  destruct (starts_with_char HASH fc); [reflexivity|].
  rewrite uri_section_eq, (find_newline_no_lf _ Hno). reflexivity.
Qed.

Lemma blank_is_no_comment (b : string) :
  is_blank (strip_cr b) = true -> starts_with_char HASH b = false.
Proof.
  rewrite <- starts_with_char_strip_cr.
  destruct (strip_cr b) as [|c rest]; simpl; [reflexivity|].
  destruct (isspace c) eqn:Hc; [|discriminate]. intros _.
  destruct (Ascii.eqb_spec c HASH) as [->|]; [discriminate|reflexivity].
Qed.

(** X9: when the first line after the comments is blank, the TAL is refused
    for its empty URI section, whatever follows that line, and nothing is
    stored. *)
Theorem X9_blank_line_after_comments_is_refused
    (comments : list string) (b rest : string) (st : pstate) :
  Forall comment_line comments ->
  strchr b LF = None ->
  is_blank (strip_cr b) = true ->
  uris (the_tal st) = [] ->
  read_content (unlines (comments ++ [b]) rest) st =
    (Some ERR_empty_uri_section, st).
Proof.
  intros Hcs Hno Hb Hempty. unfold read_content.
  rewrite unlines_app, (comment_section_comments _ Hcs).
  simpl (unlines [b] rest).
  rewrite comment_section_eq, starts_with_char_app_lf,
    (blank_is_no_comment _ Hb).
  rewrite uri_section_eq.
  destruct (find_newline_app_lf _ rest Hno) as (nl & -> & ->).
  rewrite Hb, Hempty. reflexivity.
Qed.

(** X10: [tal_init] on a file laid out as comments, accepted URI lines, a
    blank line and the key text: the result depends on the decoder alone.
    When the key decodes, the TAL holds the file's base name, the URIs in
    file order, the decoded key with its length and a cache handle for the
    base name, one reference per URI; when it does not, the call fails and
    every reference is given back. *)
Theorem X10_tal_init_of_a_regular_file
    (t : tal) (file_path : string) (log : list uri_event)
    (comments us : list string) (b key : string) :
  let name := tal_file_name file_path in
  let found := uris_of name us in
  file_load file_path = (0, unlines (comments ++ us ++ [b]) key) ->
  Forall comment_line comments ->
  Forall (uri_line name) us ->
  us <> [] ->
  strchr b LF = None ->
  is_blank (strip_cr b) = true ->
  tal_init t file_path log =
    match base64_decode key with
    | Some bytes =>
        (None,
         mk_pstate (mk_tal name found bytes (List.length bytes) (Some name))
           (log ++ map UriCreate found))
    | None =>
        (Some ERR_cannot_decode,
         mk_pstate (mk_tal name [] (spki t) (spki_len t) (cache t))
           (log ++ map UriCreate found ++ map UriRefput found))
    end.
Proof.
  intros name found Hload Hcs Hus Hne Hno Hb.
  unfold tal_init. rewrite Hload. simpl negb. cbv iota.
  fold (tal_file_name file_path). fold name.
  set (st0 := mk_pstate (mk_tal name [] (spki t) (spki_len t) (cache t)) log).
  unfold read_content.
  rewrite !unlines_app, (comment_section_comments _ Hcs),
    (comment_section_uri_lines _ Hne Hus).
  rewrite uri_section_lines_then;
    [|simpl; destruct b; discriminate|exact Hus].
  simpl (unlines [b] _). rewrite uri_section_eq.
  destruct (find_newline_app_lf _ key Hno) as (nl & -> & ->).
  rewrite Hb. change (file_name (the_tal st0)) with name. fold found.
  assert (Hlen : (List.length (uris (the_tal (grown st0 found))) =? 0)%nat
                 = false).
  { subst found. simpl. destruct us; [contradiction|reflexivity]. }
  rewrite Hlen.
  destruct (base64_decode key); [reflexivity|].
  unfold uris_cleanup, grown. simpl. now rewrite <- app_assoc.
Qed.

(** X11: every failure of [tal_init] is clean.  The code is non-zero, the
    cache handle and the key are as before, and each URI reference created
    on the way has been given back; when the file could not be loaded the
    structure is untouched, otherwise it holds the file's base name and an
    empty URI list. *)
Theorem X11_tal_init_failure_is_clean
    (t : tal) (file_path : string) (log : list uri_event)
    (e : tal_error) (st : pstate) :
  tal_init t file_path log = (Some e, st) ->
  errno_of e <> 0 /\
  cache (the_tal st) = cache t /\
  spki (the_tal st) = spki t /\
  spki_len (the_tal st) = spki_len t /\
  (exists created,
      refs st = log ++ map UriCreate created ++ map UriRefput created) /\
  (if fst (file_load file_path) =? 0
   then uris (the_tal st) = [] /\
        file_name (the_tal st) = tal_file_name file_path
   else e = ERR_file_load (fst (file_load file_path)) /\
        st = mk_pstate t log).
Proof.
  unfold tal_init. destruct (file_load file_path) as [error buffer].
  cbn [fst]. destruct (Z.eqb_spec error 0) as [->|Herr]; simpl negb; cbv iota.
  2: { intros [= <- <-]. simpl. repeat split; auto.
       exists []. simpl. now rewrite app_nil_r. }
  fold (tal_file_name file_path).
  set (name := tal_file_name file_path).
  set (st0 := mk_pstate (mk_tal name [] (spki t) (spki_len t) (cache t)) log).
  unfold read_content.
  destruct (comment_section buffer) as [e'|fc1] eqn:Hc.
  { intros [= <- <-]. simpl. repeat split; auto.
    - apply (comment_section_error _ Hc).
    - exists []. simpl. now rewrite app_nil_r. }
  destruct (uri_section_outcome fc1 st0) as (created & Hst & _ & Hres).
  destruct (uri_section fc1 st0) as [[e'|b64] st1]; simpl in Hst, Hres;
    subst st1.
  { intros [= <- <-]. simpl. repeat split; auto.
    exists created. now rewrite <- app_assoc. }
  destruct (List.length (uris (the_tal (grown st0 created))) =? 0)%nat.
  { intros [= <- <-]. simpl. repeat split; auto; try discriminate.
    exists created. now rewrite <- app_assoc. }
  destruct (base64_decode b64); [discriminate|].
  intros [= <- <-]. simpl. repeat split; auto; try discriminate.
  exists created. now rewrite <- app_assoc.
Qed.

(** X12: what every successful [tal_init] leaves behind.  The TAL carries
    the file's base name and a cache handle for it, at least one URI, each
    URI accepted by [uri_create] under that name with the kind of its
    prefix, a key whose recorded length is its length, and exactly one
    reference per stored URI. *)
Theorem X12_tal_init_success_invariant
    (t : tal) (file_path : string) (log : list uri_event) (st : pstate) :
  tal_init t file_path log = (None, st) ->
  let result := the_tal st in
  fst (file_load file_path) = 0 /\
  file_name result = tal_file_name file_path /\
  cache result = Some (tal_file_name file_path) /\
  uris result <> [] /\
  Forall (well_formed (tal_file_name file_path)) (uris result) /\
  (exists key,
      base64_decode key = Some (spki result) /\
      spki_len result = List.length (spki result)) /\
  refs st = log ++ map UriCreate (uris result).
Proof.
  unfold tal_init. destruct (file_load file_path) as [error buffer].
  cbn [fst]. destruct (Z.eqb_spec error 0) as [->|Herr]; simpl negb; cbv iota;
    [|discriminate].
  fold (tal_file_name file_path).
  set (name := tal_file_name file_path).
  set (st0 := mk_pstate (mk_tal name [] (spki t) (spki_len t) (cache t)) log).
  unfold read_content.
  destruct (comment_section buffer) as [e'|fc1] eqn:Hc; [discriminate|].
  destruct (uri_section_outcome fc1 st0) as (created & Hst & Hwf & _).
  destruct (uri_section fc1 st0) as [[e'|b64] st1]; simpl in Hst;
    subst st1; [discriminate|].
  simpl (uris _).
  destruct created as [|u more]; [discriminate|]. simpl Nat.eqb. cbv iota.
  destruct (base64_decode b64) as [bytes|] eqn:Hkey; [|discriminate].
  intros [= <-]. simpl.
  split; [reflexivity|]. split; [reflexivity|]. split; [reflexivity|].
  split; [discriminate|]. split; [exact Hwf|].
  split; [|reflexivity]. exists b64. split; [exact Hkey|reflexivity].
Qed.

Lemma comment_section_header (hs : list string) (b rest : string) :
  Forall (fun l => strchr l LF = None) hs ->
  is_blank (strip_cr b) = true ->
  comment_section (unlines (hs ++ [b]) rest) =
    inr (unlines (drop_comments hs ++ [b]) rest).
Proof.
  intros Hhs Hb. induction Hhs as [|h hs' Hh _ IH]; simpl.
  - rewrite comment_section_eq, starts_with_char_app_lf,
      (blank_is_no_comment _ Hb). reflexivity.
  - rewrite comment_section_eq, starts_with_char_app_lf.
    destruct (starts_with_char HASH h); [|reflexivity].
    rewrite (strchr_app_lf _ _ Hh). simpl. exact IH.
Qed.

Lemma drop_comments_strip_cr (hs1 : list string) :
  forall hs2,
    map strip_cr hs1 = map strip_cr hs2 ->
    map strip_cr (drop_comments hs1) = map strip_cr (drop_comments hs2).
Proof.
  induction hs1 as [|h1 hs1 IH]; intros [|h2 hs2] Heq; try discriminate;
    [reflexivity|].
  simpl in Heq. injection Heq as Hh Hrest. simpl.
  rewrite <- (starts_with_char_strip_cr h1), <- (starts_with_char_strip_cr h2),
    Hh.
  destruct (starts_with_char HASH (strip_cr h2)); [now apply IH|].
  simpl. now rewrite Hh, Hrest.
Qed.

Lemma drop_comments_Forall (P : string -> Prop) (hs : list string) :
  Forall P hs -> Forall P (drop_comments hs).
Proof.
  induction 1 as [|h hs' Hh Hhs IH]; simpl; [constructor|].
  destruct (starts_with_char HASH h); [exact IH|now constructor].
Qed.

Lemma unlines_not_empty (ls : list string) (b rest : string) :
  unlines (ls ++ [b]) rest <> EmptyString.
Proof. destruct ls as [|[|c l] ls]; simpl; destruct b; discriminate. Qed.

Lemma uri_section_continue (s : string) (st : pstate) :
  s <> EmptyString ->
  match s with
  | EmptyString => (inl ERR_missing_public_key, st)
  | String c rest => uri_section (String c rest) st
  end = uri_section s st.
Proof. destruct s; [contradiction|reflexivity]. Qed.

Lemma uri_section_header (b1 b2 rest : string) (k1 : list string) :
  strchr b1 LF = None -> strchr b2 LF = None ->
  is_blank (strip_cr b1) = true -> is_blank (strip_cr b2) = true ->
  forall k2 st,
    Forall (fun l => strchr l LF = None) k1 ->
    Forall (fun l => strchr l LF = None) k2 ->
    map strip_cr k1 = map strip_cr k2 ->
    Forall (fun l => is_blank (strip_cr l) = false) k1 ->
    uri_section (unlines (k1 ++ [b1]) rest) st =
    uri_section (unlines (k2 ++ [b2]) rest) st.
Proof.
  intros Hn1 Hn2 Hb1 Hb2.
  induction k1 as [|h1 k1 IH]; intros [|h2 k2] st Hl1 Hl2 Heq Hnb;
    try discriminate.
  - simpl. rewrite !uri_section_eq.
    destruct (find_newline_app_lf _ rest Hn1) as (nl1 & -> & ->).
    destruct (find_newline_app_lf _ rest Hn2) as (nl2 & -> & ->).
    now rewrite Hb1, Hb2.
  - simpl in Heq. injection Heq as Hh Hrest.
    inversion Hl1 as [|? ? Hh1 Hl1']; subst.
    inversion Hl2 as [|? ? Hh2 Hl2']; subst.
    inversion Hnb as [|? ? Hnb1 Hnb']; subst.
    simpl. rewrite (uri_section_eq (h1 ++ _)), (uri_section_eq (h2 ++ _)).
    destruct (find_newline_app_lf _ (unlines (k1 ++ [b1]) rest) Hh1)
      as (nl1 & -> & ->).
    destruct (find_newline_app_lf _ (unlines (k2 ++ [b2]) rest) Hh2)
      as (nl2 & -> & ->).
    rewrite <- Hh, Hnb1.
    destruct (add_uri (strip_cr h1) st) as [[e|] st1]; [reflexivity|].
    rewrite !uri_section_continue by apply unlines_not_empty.
    now apply IH.
Qed.

(** X13: in the header of a TAL, that is the comment and URI lines up to the
    blank line, it makes no difference whether a line ends in LF or in
    CR LF: two texts whose header lines agree once a closing CR is taken
    off, and which continue with the same key text, are read alike. *)
Theorem X13_header_line_ends_are_interchangeable
    (hs1 hs2 : list string) (b1 b2 key : string) (st : pstate) :
  Forall (fun l => strchr l LF = None) (b1 :: hs1) ->
  Forall (fun l => strchr l LF = None) (b2 :: hs2) ->
  map strip_cr hs1 = map strip_cr hs2 ->
  Forall (fun l => is_blank (strip_cr l) = false) hs1 ->
  is_blank (strip_cr b1) = true ->
  is_blank (strip_cr b2) = true ->
  read_content (unlines (hs1 ++ [b1]) key) st =
  read_content (unlines (hs2 ++ [b2]) key) st.
Proof.
  intros Hl1 Hl2 Heq Hnb Hb1 Hb2.
  inversion Hl1 as [|? ? Hn1 Hh1]; subst.
  inversion Hl2 as [|? ? Hn2 Hh2]; subst.
  unfold read_content.
  rewrite (comment_section_header _ key Hh1 Hb1),
    (comment_section_header _ key Hh2 Hb2).
  rewrite (@uri_section_header b1 b2 key (drop_comments hs1) Hn1 Hn2 Hb1 Hb2
             (drop_comments hs2) st); auto using drop_comments_Forall,
    drop_comments_strip_cr.
Qed.

Lemma tal_init_error_nonzero
    (t : tal) (file_path : string) (log : list uri_event)
    (e : tal_error) (st : pstate) :
  tal_init t file_path log = (Some e, st) -> errno_of e <> 0.
Proof.
  unfold tal_init. destruct (file_load file_path) as [error buffer].
  destruct (Z.eqb_spec error 0) as [->|Herr]; simpl negb; cbv iota;
    [|intros [= <- <-]; exact Herr].
  unfold read_content.
  destruct (comment_section buffer) as [e'|fc1] eqn:Hc;
    [intros [= <- <-]; apply (comment_section_error _ Hc)|].
  match goal with
  | |- context [uri_section fc1 ?st0] =>
      destruct (uri_section_outcome fc1 st0) as (created & _ & _ & Hres);
      destruct (uri_section fc1 st0) as [[e'|b64] st1]
  end; simpl in Hres; [intros [= <- <-]; exact Hres|].
  destruct (List.length (uris (the_tal st1)) =? 0)%nat;
    [intros [= <- <-]; discriminate|].
  destruct (base64_decode b64); [discriminate|].
  intros [= <- <-]. discriminate.
Qed.

(** [tal_cleanup]: the cache handle goes to [cache_destroy] and is handed
    back here as the handle destroyed; the URIs are released.  The key
    buffer is freed, which leaves no trace in this state. *)
Definition tal_cleanup (st : pstate) : option string * pstate :=
  (cache (the_tal st), uris_cleanup st).

Lemma tal_init_success_refs
    (t : tal) (file_path : string) (log : list uri_event) (st : pstate) :
  tal_init t file_path log = (None, st) ->
  cache (the_tal st) = Some (tal_file_name file_path) /\
  refs st = log ++ map UriCreate (uris (the_tal st)).
Proof.
  unfold tal_init. destruct (file_load file_path) as [error buffer].
  destruct (negb (error =? 0)); [discriminate|].
  fold (tal_file_name file_path). unfold read_content.
  destruct (comment_section buffer) as [e'|fc1]; [discriminate|].
  match goal with
  | |- context [uri_section fc1 ?st0] =>
      destruct (uri_section_outcome fc1 st0) as (created & Hst & _ & _);
      destruct (uri_section fc1 st0) as [[e'|b64] st1]
  end; simpl in Hst; subst st1; [discriminate|].
  destruct (List.length _ =? 0)%nat; [discriminate|].
  destruct (base64_decode b64); [|discriminate].
  intros [= <-]. simpl. split; reflexivity.
Qed.

(** X20: [tal_init] followed by [tal_cleanup] leaves nothing behind: the
    cache destroyed is the one [tal_init] created for the file's base name,
    the URI list is empty again, and every URI reference created by
    [tal_init] has been given back once, in the order of creation. *)
Theorem X20_tal_cleanup_undoes_tal_init
    (t : tal) (file_path : string) (log : list uri_event) (st : pstate) :
  tal_init t file_path log = (None, st) ->
  let created := uris (the_tal st) in
  fst (tal_cleanup st) = Some (tal_file_name file_path) /\
  uris (the_tal (snd (tal_cleanup st))) = [] /\
  refs (snd (tal_cleanup st))
    = log ++ map UriCreate created ++ map UriRefput created.
Proof.
  intros Hinit created.
  destruct (tal_init_success_refs _ _ _ Hinit) as [Hcache Hrefs].
  unfold tal_cleanup, uris_cleanup. simpl.
  split; [exact Hcache|]. split; [reflexivity|].
  rewrite Hrefs, <- app_assoc. reflexivity.
Qed.

End Parser.

(** *** Concrete files *)

Definition example_tal : tal := mk_tal "example.tal" [] [] 0 None.
Definition example_state : pstate := mk_pstate example_tal [].

Definition always_created : string -> uri_type -> string -> Z :=
  fun _ _ _ => 0.
Definition rejecting_decoder : string -> option (list Byte.byte) :=
  fun _ => None.
(** A decoder that accepts the empty input, as a decoder that simply
    consumes what it is given does. *)
Definition lenient_decoder : string -> option (list Byte.byte) :=
  fun s => match s with EmptyString => Some [] | _ => None end.

(** One URI line, the blank separator, and nothing else. *)
Definition file_ending_at_blank_line : string :=
  unlines ["rsync://example.net/ta.cer"; ""]%string EmptyString.

(** One URI line and nothing else. *)
Definition file_ending_after_uri : string :=
  unlines ["rsync://example.net/ta.cer"]%string EmptyString.

(** C7 as stated fails: a TAL file that ends at the blank-line separator
    is not reported as ending prematurely.  With a decoder that rejects the
    empty input the failure is "Cannot decode the public key"; with one
    that accepts it the parse succeeds.  A file that ends right after the
    URI line fails with "missing the public key". *)
Lemma C7_counterexample :
  fst (read_content always_created rejecting_decoder
         file_ending_at_blank_line example_state)
    = Some ERR_cannot_decode /\
  fst (read_content always_created lenient_decoder
         file_ending_at_blank_line example_state)
    = None /\
  fst (read_content always_created rejecting_decoder
         file_ending_after_uri example_state)
    = Some ERR_missing_public_key.
Proof. repeat split; reflexivity. Qed.

Definition example_comments : list string := ["# trust anchor"%string].

(** Two URI lines, the second one ended by CR LF. *)
Definition example_uri_lines : list string :=
  ["rsync://example.net/ta.cer"%string;
   String.append "https://example.net/ta.cer" (String CR EmptyString)].

Lemma C7_witness :
  fst (read_content always_created rejecting_decoder
         (unlines
            (example_comments ++ example_uri_lines
               ++ [String CR EmptyString])%list
            EmptyString)
         example_state)
    = Some ERR_cannot_decode /\
  fst (read_content always_created rejecting_decoder
         (unlines (example_comments ++ example_uri_lines)%list EmptyString)
         example_state)
    = Some ERR_missing_public_key.
Proof.
  destruct (@C7_file_ending_at_blank_line always_created rejecting_decoder
              example_comments example_uri_lines (String CR EmptyString)
              example_state) as [H1 H2].
  - repeat constructor.
  - repeat constructor.
  - discriminate.
  - reflexivity.
  - reflexivity.
  - split; [rewrite H1 | rewrite H2]; reflexivity.
Defined.

Definition file_with_ftp_uri : string :=
  unlines
    ["# trust anchor"; "rsync://example.net/ta.cer"; "ftp://example.net/ta.cer";
     ""; "AAAA"]%string
    EmptyString.

Lemma C8_witness :
  exists e created st,
    tal_init always_created lenient_decoder
      (fun _ => (0, file_with_ftp_uri)) example_tal "/etc/tal/example.tal" []
      = (Some e, st) /\
    errno_of e <> 0 /\
    uris (the_tal st) = [] /\
    cache (the_tal st) = None /\
    refs st = [] ++ map UriCreate created ++ map UriRefput created.
Proof.
  apply (@C8_other_scheme_is_hard_error always_created lenient_decoder
           (fun _ => (0, file_with_ftp_uri)) example_tal
           "/etc/tal/example.tal" file_with_ftp_uri []).
  - reflexivity.
  - exists "ftp://example.net/ta.cer"%string.
    split; [right; left; reflexivity | split; reflexivity].
Defined.

(** The run behind the witness: the rsync URI is created, the ftp line is
    refused, and the URI is released again. *)
Example tal_init_ftp_run :
  tal_init always_created lenient_decoder
    (fun _ => (0, file_with_ftp_uri)) example_tal "/etc/tal/example.tal" []
  = (Some (ERR_non_rsync_https "ftp://example.net/ta.cer"),
     let u := mk_uri "example.tal" UT_RSYNC "rsync://example.net/ta.cer" in
     mk_pstate (mk_tal "example.tal" [] [] 0 None)
       [UriCreate u; UriRefput u]).
Proof. reflexivity. Qed.

(** A decoder that knows one key. *)
Definition example_key_decoder (s : string) : option (list Byte.byte) :=
  if String.eqb s "AAAA" then Some [Byte.x00; Byte.x00; Byte.x00] else None.

Definition regular_file : string :=
  unlines (example_comments ++ example_uri_lines ++ [EmptyString])%list
    "AAAA".

Lemma X8_witness :
  read_content always_created lenient_decoder "rsync://example.net/ta.cer"
    example_state
  = (Some (ERR_premature "rsync://example.net/ta.cer"), example_state).
Proof.
  apply (@X8_text_without_line_break_is_premature always_created
           lenient_decoder "rsync://example.net/ta.cer" example_state).
  reflexivity.
Defined.

Lemma X9_witness :
  read_content always_created example_key_decoder
    (unlines (example_comments ++ [String CR EmptyString])%list
       "rsync://example.net/ta.cer")
    example_state
  = (Some ERR_empty_uri_section, example_state).
Proof.
  apply (@X9_blank_line_after_comments_is_refused always_created
           example_key_decoder example_comments (String CR EmptyString)
           "rsync://example.net/ta.cer" example_state).
  - repeat constructor.
  - reflexivity.
  - reflexivity.
  - reflexivity.
Defined.

Lemma X10_witness :
  tal_init always_created example_key_decoder (fun _ => (0, regular_file))
    example_tal "/etc/tal/example.tal" []
  = (None,
     let u1 := mk_uri "example.tal" UT_RSYNC "rsync://example.net/ta.cer" in
     let u2 := mk_uri "example.tal" UT_HTTPS "https://example.net/ta.cer" in
     mk_pstate
       (mk_tal "example.tal" [u1; u2] [Byte.x00; Byte.x00; Byte.x00] 3
          (Some "example.tal"%string))
       [UriCreate u1; UriCreate u2]).
Proof.
  apply (@X10_tal_init_of_a_regular_file always_created example_key_decoder
           (fun _ => (0, regular_file)) example_tal "/etc/tal/example.tal" []
           example_comments example_uri_lines EmptyString "AAAA").
  - reflexivity.
  - repeat constructor.
  - repeat constructor.
  - discriminate.
  - reflexivity.
  - reflexivity.
Defined.

Definition ftp_failure : tal_error :=
  ERR_non_rsync_https "ftp://example.net/ta.cer".

Definition ftp_state : pstate :=
  let u := mk_uri "example.tal" UT_RSYNC "rsync://example.net/ta.cer" in
  mk_pstate (mk_tal "example.tal" [] [] 0 None) [UriCreate u; UriRefput u].

Lemma X11_witness :
  errno_of ftp_failure <> 0 /\
  cache (the_tal ftp_state) = None /\
  spki (the_tal ftp_state) = [] /\
  spki_len (the_tal ftp_state) = 0%nat /\
  (exists created,
      refs ftp_state = [] ++ map UriCreate created ++ map UriRefput created) /\
  uris (the_tal ftp_state) = [] /\
  file_name (the_tal ftp_state) = "example.tal"%string.
Proof.
  apply (@X11_tal_init_failure_is_clean always_created lenient_decoder
           (fun _ => (0, file_with_ftp_uri)) example_tal
           "/etc/tal/example.tal" [] ftp_failure ftp_state).
  reflexivity.
Defined.

Definition regular_state : pstate :=
  snd (tal_init always_created example_key_decoder
         (fun _ => (0, regular_file)) example_tal "/etc/tal/example.tal" []).

Lemma X12_witness :
  file_name (the_tal regular_state) = "example.tal"%string /\
  cache (the_tal regular_state) = Some "example.tal"%string /\
  uris (the_tal regular_state) <> [] /\
  Forall (well_formed always_created "example.tal")
    (uris (the_tal regular_state)) /\
  (exists key,
      example_key_decoder key = Some (spki (the_tal regular_state)) /\
      spki_len (the_tal regular_state)
        = List.length (spki (the_tal regular_state))) /\
  refs regular_state = [] ++ map UriCreate (uris (the_tal regular_state)).
Proof.
  apply (@X12_tal_init_success_invariant always_created example_key_decoder
           (fun _ => (0, regular_file)) example_tal "/etc/tal/example.tal" []
           regular_state).
  reflexivity.
Defined.

(** The header of [regular_file] with LF alone, and with CR LF throughout. *)
Definition header_lf : list string :=
  ["# trust anchor"; "rsync://example.net/ta.cer";
   "https://example.net/ta.cer"]%string.

Definition header_crlf : list string :=
  map (fun l => String.append l (String CR EmptyString)) header_lf.

Lemma X13_witness :
  read_content always_created example_key_decoder
    (unlines (header_lf ++ [EmptyString])%list "AAAA") example_state
  = read_content always_created example_key_decoder
      (unlines (header_crlf ++ [String CR EmptyString])%list "AAAA")
      example_state.
Proof.
  apply (@X13_header_line_ends_are_interchangeable always_created
           example_key_decoder header_lf header_crlf EmptyString
           (String CR EmptyString) "AAAA" example_state).
  - repeat constructor.
  - repeat constructor.
  - reflexivity.
  - repeat constructor.
  - reflexivity.
  - reflexivity.
Defined.

Lemma X20_witness :
  fst (tal_cleanup regular_state) = Some "example.tal"%string /\
  uris (the_tal (snd (tal_cleanup regular_state))) = [] /\
  refs (snd (tal_cleanup regular_state))
    = [] ++ map UriCreate (uris (the_tal regular_state))
         ++ map UriRefput (uris (the_tal regular_state)).
Proof.
  apply (@X20_tal_cleanup_undoes_tal_init always_created example_key_decoder
           (fun _ => (0, regular_file)) example_tal "/etc/tal/example.tal" []
           regular_state).
  reflexivity.
Defined.

End Tal.

(** ** The validation walk of one TAL URI ([handle_tal_uri]) *)

Module Walk.
Import Errno.

(** A computation either completes, or the process is stopped by
    [pr_crit]. *)
Inductive outcome (A : Type) :=
| Done (a : A)
| Critical.
Arguments Done {A} a.
Arguments Critical {A}.

Inductive pubkey_state := PKS_VALID | PKS_INVALID | PKS_UNTESTED.

Definition rpki_uri := Tal.rpki_uri.

(** [sfx] is a suffix of [s]. *)
Fixpoint ends_with (sfx s : string) : bool :=
  String.eqb s sfx ||
  match s with
  | EmptyString => false
  | String _ rest => ends_with sfx rest
  end.

(** Modelled from the spec: [uri_is_certificate] of the absent URI module;
    a TAL URI names a certificate when it carries the .cer extension. *)
Definition uri_is_certificate (uri : rpki_uri) : bool :=
  ends_with ".cer" (Tal.uri_global uri).

Section Engine.

Variable vrp : Type.
Variable db_table : Type.

(** What a traversed object hands to the validation handler. *)
Inductive payload :=
| ROA_V4 (v : vrp)
| ROA_V6 (v : vrp)
| ROUTER_KEY (v : vrp).

(** [struct validation_handler]: the three callbacks; [arg] is the table
    they fill. *)
Record validation_handler := mk_handler {
  handle_roa_v4 : vrp -> db_table -> db_table;
  handle_roa_v6 : vrp -> db_table -> db_table;
  handle_router_key : vrp -> db_table -> db_table;
  arg : db_table
}.

(** Modelled from the spec: a certificate as the traversal engine finds it
    in the repository: the status its traversal ends with, the payloads
    it hands to the validation handler, and the CA certificates of its
    manifest, which the traversal defers. *)
#[warnings="-register-all"]
Inductive certificate :=
| Certificate (uri : rpki_uri) (error : Z) (emitted : list payload)
    (children : list certificate).

Definition cert_uri (c : certificate) : rpki_uri :=
  match c with Certificate uri _ _ _ => uri end.

Fixpoint cert_count (c : certificate) : nat :=
  match c with
  | Certificate _ _ _ children => S (list_sum (map cert_count children))
  end.

Definition pending (stack : list certificate) : nat :=
  list_sum (map cert_count stack).

(** [struct validation], as far as [handle_tal_uri] looks into it, with a
    log of the URIs handed to [certificate_traverse]. *)
Record validation := mk_validation {
  v_tal : Tal.tal;
  v_handler : validation_handler;
  v_pubkey_state : pubkey_state;
  v_certstack : option (list certificate);
  v_traversed : list rpki_uri
}.

(** The callbacks of [rtr/db/vrps.c] installed by [handle_tal_uri]. *)
Variable vrps_handle_roa_v4 : vrp -> db_table -> db_table.
Variable vrps_handle_roa_v6 : vrp -> db_table -> db_table.
Variable vrps_handle_router_key : vrp -> db_table -> db_table.

(** The collaborators: the status of [validation_prepare], and what the
    repository holds at a TAL URI: the trust anchor certificate found
    there, and how its public key compares with the TAL's. *)
Variable validation_prepare_status : Tal.tal -> Z.
Variable trust_anchor : Tal.tal -> rpki_uri -> certificate.
Variable trust_anchor_pubkey : Tal.tal -> rpki_uri -> pubkey_state.

(** Modelled from the spec: [validation_prepare] of the absent [state.c]
    builds the validation state, with an empty deferred stack. *)
Definition validation_prepare (tal : Tal.tal) (handler : validation_handler)
  : Z * validation :=
  (validation_prepare_status tal,
   mk_validation tal handler PKS_UNTESTED (Some []) []).

Definition validation_pubkey_state (state : validation) : pubkey_state :=
  v_pubkey_state state.

Definition validation_certstack (state : validation)
  : option (list certificate) :=
  v_certstack state.

Definition deliver (p : payload) (h : validation_handler)
  : validation_handler :=
  let db :=
    match p with
    | ROA_V4 v => handle_roa_v4 h v (arg h)
    | ROA_V6 v => handle_roa_v6 h v (arg h)
    | ROUTER_KEY v => handle_router_key h v (arg h)
    end in
  mk_handler (handle_roa_v4 h) (handle_roa_v6 h) (handle_router_key h) db.

(** Modelled from the spec: [certificate_traverse] of the absent
    [certificate.c], on the certificate found at the URI: its payloads go
    to the handler, its children are pushed on the deferred stack, and its
    status is returned. *)
Definition certificate_traverse (uri : rpki_uri) (found : certificate)
    (state : validation) : Z * validation :=
  match found with
  | Certificate _ error emitted children =>
      (error,
       mk_validation (v_tal state)
         (fold_left (fun h p => deliver p h) emitted (v_handler state))
         (v_pubkey_state state)
         (option_map (fun stack => rev children ++ stack)
            (v_certstack state))
         (v_traversed state ++ [uri]))
  end.

(** The traversal of the root: [certificate_traverse(NULL, uri)]; the
    certificate is the one the repository holds at the TAL URI, and the
    state records how its key compares with the TAL's. *)
Definition certificate_traverse_root (uri : rpki_uri) (state : validation)
  : Z * validation :=
  let (error, state1) :=
    certificate_traverse uri (trust_anchor (v_tal state) uri) state in
  (error,
   mk_validation (v_tal state1) (v_handler state1)
     (trust_anchor_pubkey (v_tal state) uri)
     (v_certstack state1) (v_traversed state1)).

(** Modelled from the spec: [deferstack_pop] of the absent [cert_stack.c].
    Popping an empty stack answers -ENOENT. *)
Definition deferstack_pop (stack : list certificate)
  : Z * option certificate * list certificate :=
  match stack with
  | [] => (- ENOENT, None, [])
  | deferred :: rest => (0, Some deferred, rest)
  end.

Definition set_certstack (state : validation) (stack : list certificate)
  : validation :=
  mk_validation (v_tal state) (v_handler state) (v_pubkey_state state)
    (Some stack) (v_traversed state).

Definition pending_of (state : validation) : nat :=
  match v_certstack state with
  | Some stack => pending stack
  | None => O
  end.

Lemma pending_app (a b : list certificate) :
  pending (a ++ b) = (pending a + pending b)%nat.
Proof.
  unfold pending. induction a as [|c a IH]; simpl; [reflexivity|].
  rewrite IH. lia.
Qed.

Lemma pending_rev (a : list certificate) : pending (rev a) = pending a.
Proof.
  induction a as [|c a IH]; simpl; [reflexivity|].
  rewrite pending_app, IH. unfold pending. simpl. lia.
Qed.

Lemma pending_after_traverse (uri : rpki_uri) (c : certificate)
    (state : validation) (rest : list certificate) :
  (pending_of (snd (certificate_traverse uri c (set_certstack state rest)))
   < pending (c :: rest))%nat.
Proof.
  destruct c as [u e em ch]. unfold pending_of. simpl.
  rewrite pending_app, pending_rev. unfold pending. simpl. lia.
Qed.

(** The loop of [handle_tal_uri] over the deferred certificates. *)
Equations? deferred_loop (state : validation) : outcome (Z * validation)
  by wf (pending_of state) lt :=
deferred_loop state with Tal.inspect (v_certstack state) := {
  | exist _ None _ := Critical
  | exist _ (Some stack) Hs with Tal.inspect (deferstack_pop stack) := {
      | exist _ (error, popped, rest) Hp with Tal.inspect (error =? - ENOENT) := {
          | exist _ true _ := Done (0, state)
          | exist _ false _ with Tal.inspect (error =? 0) := {
              | exist _ false _ := Critical
              | exist _ true _ with popped := {
                  | None := Critical
                  | Some deferred :=
                      deferred_loop
                        (snd (certificate_traverse (cert_uri deferred)
                                deferred (set_certstack state rest))) } } } } }.
Proof.
  unfold pending_of at 2. rewrite Hs.
  destruct stack as [|d stack']; simpl in Hp; [discriminate|].
  injection Hp as _ <- <-. apply pending_after_traverse.
Qed.

(** What [handle_tal_uri] leaves behind: its return value, the table the
    handler was filling, and the URIs it handed to
    [certificate_traverse]. *)
Record walk := mk_walk {
  w_error : Z;
  w_db : db_table;
  w_traversed : list rpki_uri
}.

(** The [end] label: [validation_destroy(state); return error]. *)
Definition finish (error : Z) (state : validation) : outcome walk :=
  Done (mk_walk error (arg (v_handler state)) (v_traversed state)).

Definition handle_tal_uri (tal : Tal.tal) (uri : rpki_uri) (db : db_table)
  : outcome walk :=
  let validation_handler :=
    mk_handler vrps_handle_roa_v4 vrps_handle_roa_v6 vrps_handle_router_key
      db in
  let (error, state) := validation_prepare tal validation_handler in
  if negb (error =? 0) then Done (mk_walk (ENSURE_NEGATIVE error) db [])
  else if negb (uri_is_certificate uri) then finish EINVAL state
  else
    let (error, state1) := certificate_traverse_root uri state in
    if negb (error =? 0) then
      match validation_pubkey_state state1 with
      | PKS_INVALID => finish EINVAL state1
      | PKS_VALID | PKS_UNTESTED => finish (ENSURE_NEGATIVE error) state1
      end
    else
      match validation_certstack state1 with
      | None => Critical
      | Some _ =>
          match deferred_loop state1 with
          | Done (error, state2) => finish error state2
          | Critical => Critical
          end
      end.

(** [__handle_tal_uri], the callback given to the fetcher. *)
Definition handle_tal_uri_cb (tal : Tal.tal) (uri : rpki_uri)
    (db : db_table) : outcome (Z * db_table) :=
  match handle_tal_uri tal uri db with
  | Done w => Done (w_error w, w_db w)
  | Critical => Critical
  end.

Definition cert_error (c : certificate) : Z :=
  match c with Certificate _ error _ _ => error end.

(** A failure at the level of the root: the validation state could not be
    prepared, the TAL URI does not name a certificate, or the traversal of
    the root certificate reported an error. *)
Definition root_level_failure (tal : Tal.tal) (uri : rpki_uri) : Prop :=
  validation_prepare_status tal <> 0 \/
  uri_is_certificate uri = false \/
  cert_error (trust_anchor tal uri) <> 0.

(** *** The deferred loop always runs to the end of the stack *)

Lemma deferred_loop_eq (state : validation) :
  deferred_loop state =
    match v_certstack state with
    | None => Critical
    | Some stack =>
        let '(error, popped, rest) := deferstack_pop stack in
        if error =? - ENOENT then Done (0, state)
        else if negb (error =? 0) then Critical
        else
          match popped with
          | None => Critical
          | Some deferred =>
              deferred_loop
                (snd (certificate_traverse (cert_uri deferred) deferred
                        (set_certstack state rest)))
          end
    end.
Proof.
  funelim (deferred_loop state); clear Heqcall; Tal.inspected;
    try reflexivity.
Qed.

Lemma deferred_loop_exhausts (n : nat) :
  forall state stack,
    v_certstack state = Some stack ->
    pending stack = n ->
    exists state',
      deferred_loop state = Done (0, state') /\
      v_certstack state' = Some [] /\
      List.length (v_traversed state')
        = (List.length (v_traversed state) + n)%nat.
Proof.
  induction n as [n IH] using lt_wf_ind. intros state stack Hs Hn.
  rewrite deferred_loop_eq, Hs.
  destruct stack as [|d rest]; simpl.
  - exists state. unfold pending in Hn. simpl in Hn. subst n.
    repeat split; [exact Hs|lia].
  - destruct d as [u e em ch].
    set (state1 := snd (certificate_traverse
                          (cert_uri (Certificate u e em ch))
                          (Certificate u e em ch)
                          (set_certstack state rest))).
    assert (Hn1 : n = S (pending (rev ch ++ rest))).
    { rewrite <- Hn, pending_app, pending_rev. unfold pending. simpl. lia. }
    destruct (IH (pending (rev ch ++ rest)) ltac:(lia) state1
                (rev ch ++ rest) eq_refl eq_refl)
      as (state' & Hrun & Hst & Hlen).
    exists state'. repeat split; [exact Hrun|exact Hst|].
    rewrite Hlen. subst state1. simpl. rewrite List.length_app. simpl. lia.
Qed.

Lemma handle_tal_uri_root_valid (tal : Tal.tal) (uri : rpki_uri)
    (db : db_table) :
  validation_prepare_status tal = 0 ->
  uri_is_certificate uri = true ->
  cert_error (trust_anchor tal uri) = 0 ->
  exists w,
    handle_tal_uri tal uri db = Done w /\
    w_error w = 0 /\
    List.length (w_traversed w) = cert_count (trust_anchor tal uri).
Proof.
  intros Hprep Hcer Hroot.
  unfold handle_tal_uri, validation_prepare, certificate_traverse_root.
  rewrite Hprep, Hcer. simpl.
  destruct (trust_anchor tal uri) as [ru e em ch] eqn:Hta.
  simpl in Hroot. subst e. simpl.
  match goal with
  | |- context [deferred_loop ?st] =>
      destruct (@deferred_loop_exhausts (pending (rev ch ++ [])) st
                  (rev ch ++ []) eq_refl eq_refl)
        as (state' & -> & _ & Hlen)
  end.
  eexists. split; [reflexivity|]. split; [reflexivity|].
  simpl in *. rewrite Hlen, pending_app, pending_rev.
  unfold pending. simpl. lia.
Qed.

(** A failure at the level of the root is reported, and ends the walk at
    the root. *)
Lemma handle_tal_uri_root_failure (tal : Tal.tal) (uri : rpki_uri)
    (db : db_table) :
  root_level_failure tal uri ->
  exists w,
    handle_tal_uri tal uri db = Done w /\
    w_error w <> 0 /\
    (List.length (w_traversed w) <= 1)%nat.
Proof.
  unfold root_level_failure, handle_tal_uri, validation_prepare,
    certificate_traverse_root.
  intros Hfail.
  destruct (Z.eqb_spec (validation_prepare_status tal) 0) as [Hprep|Hprep];
    simpl.
  2: { eexists. split; [reflexivity|]. simpl.
       split; [apply ENSURE_NEGATIVE_nonzero, Hprep|lia]. }
  destruct (uri_is_certificate uri) eqn:Hcer; simpl.
  2: { eexists. split; [reflexivity|]. simpl. split; [discriminate|lia]. }
  destruct (trust_anchor tal uri) as [ru e em ch]. simpl in *.
  destruct (Z.eqb_spec e 0) as [He|He]; simpl.
  - destruct Hfail as [H|[H|H]]; congruence.
  - unfold validation_pubkey_state. simpl.
    destruct (trust_anchor_pubkey tal uri); eexists;
      (split; [reflexivity|]); simpl;
      (split; [|lia]); try discriminate;
      apply ENSURE_NEGATIVE_nonzero, He.
Qed.

(** C5: once the root certificate has validated, [handle_tal_uri] returns
    0 whatever the traversals of the deferred certificates report: every
    certificate below the root is traversed, whatever the status of the
    ones before it, and the -ENOENT of the empty stack ends the walk
    normally.  Conversely, a non-zero return is a failure at the level of
    the root. *)
Theorem C5_errors_below_the_root_are_contained
    (tal : Tal.tal) (uri : rpki_uri) (db : db_table) :
  (validation_prepare_status tal = 0 ->
   uri_is_certificate uri = true ->
   cert_error (trust_anchor tal uri) = 0 ->
   exists w,
     handle_tal_uri tal uri db = Done w /\
     w_error w = 0 /\
     List.length (w_traversed w) = cert_count (trust_anchor tal uri))
  /\
  (forall w,
     handle_tal_uri tal uri db = Done w ->
     w_error w <> 0 ->
     root_level_failure tal uri).
Proof.
  split; [apply handle_tal_uri_root_valid|].
  intros w Hrun Herr. unfold root_level_failure.
  destruct (Z.eq_dec (validation_prepare_status tal) 0) as [Hprep|];
    [|left; assumption].
  destruct (uri_is_certificate uri) eqn:Hcer; [|right; left; reflexivity].
  destruct (Z.eq_dec (cert_error (trust_anchor tal uri)) 0) as [Hroot|];
    [|right; right; assumption].
  destruct (@handle_tal_uri_root_valid tal uri db Hprep Hcer Hroot)
    as (w' & Hrun' & Hzero & _).
  rewrite Hrun in Hrun'. injection Hrun' as ->. contradiction.
Qed.

(** C10: once the validation state has been prepared, a TAL URI that does
    not carry the .cer extension makes [handle_tal_uri] return EINVAL
    without handing anything to [certificate_traverse]; the table is left
    as it was. *)
Theorem C10_uri_without_cer_extension_is_refused
    (tal : Tal.tal) (uri : rpki_uri) (db : db_table) :
  validation_prepare_status tal = 0 ->
  uri_is_certificate uri = false ->
  handle_tal_uri tal uri db = Done (mk_walk EINVAL db []).
Proof.
  intros Hprep Hcer. unfold handle_tal_uri, validation_prepare.
  rewrite Hprep, Hcer. reflexivity.
Qed.

(** *** Further properties of the walk *)

Lemma handle_tal_uri_not_a_certificate (tal : Tal.tal) (uri : rpki_uri)
    (db : db_table) :
  validation_prepare_status tal = 0 ->
  uri_is_certificate uri = false ->
  handle_tal_uri tal uri db = Done (mk_walk EINVAL db []).
Proof.
  intros Hprep Hcer. unfold handle_tal_uri, validation_prepare.
  rewrite Hprep, Hcer. reflexivity.
Qed.

(** X14: with the validation state and the deferred stack as modelled
    above, [handle_tal_uri] always returns, and its return value is decided
    at the root alone: the negated status of a failed [validation_prepare],
    EINVAL for a URI that names no certificate, 0 when the root
    certificate validates, and for a root that fails EINVAL when its key
    is not the TAL's and the negated status otherwise.  So the value is
    never positive unless it is EINVAL, and a failed [validation_prepare]
    leaves the table untouched and nothing traversed. *)
Theorem X14_handle_tal_uri_return_code
    (tal : Tal.tal) (uri : rpki_uri) (db : db_table) :
  let prepared := validation_prepare_status tal in
  let root := cert_error (trust_anchor tal uri) in
  exists w,
    handle_tal_uri tal uri db = Done w /\
    w_error w =
      (if negb (prepared =? 0) then ENSURE_NEGATIVE prepared
       else if negb (uri_is_certificate uri) then EINVAL
       else if root =? 0 then 0
       else match trust_anchor_pubkey tal uri with
            | PKS_INVALID => EINVAL
            | PKS_VALID | PKS_UNTESTED => ENSURE_NEGATIVE root
            end) /\
    (w_error w <= 0 \/ w_error w = EINVAL) /\
    (prepared <> 0 -> w_db w = db /\ w_traversed w = []).
Proof.
  intros prepared root. subst prepared root.
  destruct (Z.eqb_spec (validation_prepare_status tal) 0) as [Hprep|Hprep].
  2: { unfold handle_tal_uri, validation_prepare.
       rewrite (proj2 (Z.eqb_neq _ _) Hprep). simpl.
       eexists. split; [reflexivity|]. simpl. split; [reflexivity|].
       split; [|auto]. left. unfold ENSURE_NEGATIVE.
       destruct (Z.ltb_spec (validation_prepare_status tal) 0); lia. }
  destruct (uri_is_certificate uri) eqn:Hcer.
  2: { rewrite (@handle_tal_uri_not_a_certificate tal uri db Hprep Hcer).
       eexists. split; [reflexivity|]. simpl. split; [reflexivity|].
       split; [now right|contradiction]. }
  destruct (Z.eqb_spec (cert_error (trust_anchor tal uri)) 0) as [Hroot|Hroot].
  { destruct (@handle_tal_uri_root_valid tal uri db Hprep Hcer Hroot)
      as (w & -> & Hzero & _).
    exists w. split; [reflexivity|]. simpl. rewrite Hzero.
    split; [reflexivity|]. split; [left; lia|contradiction]. }
  unfold handle_tal_uri, validation_prepare, certificate_traverse_root.
  rewrite Hprep, Hcer. simpl.
  destruct (trust_anchor tal uri) as [ru e em ch]. simpl in *.
  rewrite (proj2 (Z.eqb_neq _ _) Hroot). simpl.
  unfold validation_pubkey_state. simpl.
  destruct (trust_anchor_pubkey tal uri); eexists;
    (split; [reflexivity|]); simpl; (split; [reflexivity|]);
    (split; [|contradiction]); try (now right);
    left; unfold ENSURE_NEGATIVE; destruct (Z.ltb_spec e 0); lia.
Qed.

End Engine.

(** *** A concrete repository *)

Definition example_uri (s : string) : rpki_uri :=
  Tal.mk_uri "example.tal" Tal.UT_RSYNC s.

Definition ta_uri : rpki_uri := example_uri "rsync://example.net/ta.cer".

(** A valid root over two CAs: the first fails, the second emits a ROA and
    has two children of its own, one failing and one emitting a router
    key. *)
Definition example_repository : certificate Z :=
  Certificate ta_uri 0 []
    [ Certificate (example_uri "rsync://example.net/a.cer") (- 22) [] [];
      Certificate (example_uri "rsync://example.net/b.cer") 0
        [ROA_V4 64496]
        [ Certificate (example_uri "rsync://example.net/b/c.cer") 5 [] [];
          Certificate (example_uri "rsync://example.net/b/d.cer") 0
            [ROUTER_KEY 64497] [] ] ].

(** The same repository with a root that does not validate. *)
Definition broken_repository : certificate Z :=
  Certificate ta_uri 71 [] [].

Definition insert (v : Z) (db : list Z) : list Z := v :: db.

Definition example_walk (status : Z) (found : certificate Z)
    (uri : rpki_uri) : outcome (walk (list Z)) :=
  handle_tal_uri insert insert insert (fun _ => status) (fun _ _ => found)
    (fun _ _ => PKS_VALID) Tal.example_tal uri [].

Example example_walk_run :
  example_walk 0 example_repository ta_uri =
    Done (mk_walk 0 [64497; 64496]
            [ ta_uri;
              example_uri "rsync://example.net/b.cer";
              example_uri "rsync://example.net/b/d.cer";
              example_uri "rsync://example.net/b/c.cer";
              example_uri "rsync://example.net/a.cer" ]).
Proof. reflexivity. Qed.

Example broken_walk_run :
  example_walk 0 broken_repository ta_uri = Done (mk_walk (- 71) [] [ta_uri]).
Proof. reflexivity. Qed.

Lemma C5_witness :
  (exists w,
      example_walk 0 example_repository ta_uri = Done w /\
      w_error w = 0 /\
      List.length (w_traversed w) = 5%nat)
  /\
  root_level_failure (fun _ => 0) (fun _ _ => broken_repository)
    Tal.example_tal ta_uri.
Proof.
  split.
  - apply (proj1 (@C5_errors_below_the_root_are_contained Z (list Z)
                    insert insert insert (fun _ => 0)
                    (fun _ _ => example_repository) (fun _ _ => PKS_VALID)
                    Tal.example_tal ta_uri []));
      reflexivity.
  - apply (proj2 (@C5_errors_below_the_root_are_contained Z (list Z)
                    insert insert insert (fun _ => 0)
                    (fun _ _ => broken_repository) (fun _ _ => PKS_VALID)
                    Tal.example_tal ta_uri [])
             (mk_walk (- 71) [] [ta_uri]));
      [reflexivity|discriminate].
Defined.

Lemma C10_witness :
  example_walk 0 example_repository
    (example_uri "rsync://example.net/ta.roa")
  = Done (mk_walk 22 [] []).
Proof.
  apply (@C10_uri_without_cer_extension_is_refused Z (list Z)
           insert insert insert (fun _ => 0)
           (fun _ _ => example_repository) (fun _ _ => PKS_VALID)
           Tal.example_tal (example_uri "rsync://example.net/ta.roa") []);
    reflexivity.
Defined.

End Walk.

(** ** The TAL dispatcher ([do_file_validation],
       [perform_standalone_validation]) *)

Module Dispatch.
Import Errno.
Import Walk.

(** A run of the dispatcher ends the way [outcome] says, or its behaviour
    is undefined: it reads or frees memory that it has already handed to
    [free]. *)
Inductive execution (A : Type) :=
| Ends (o : outcome A)
| Undefined.
Arguments Ends {A} o.
Arguments Undefined {A}.

Coercion Ends : outcome >-> execution.

Section Dispatcher.

Variable vrp : Type.

(** The rows of a [struct db_table]. *)
Variable rows : Type.

(** A [struct db_table *]: the table is told apart from the others by the
    TAL file of the worker that created it, which stands for its address;
    its rows change as the table is filled, joined or drained. *)
Record db_table := mk_table {
  address : string;
  content : rows
}.

(** [struct validation_thread].  The thread id is left out: a thread is
    told apart by its TAL file. *)
Record validation_thread := mk_thread {
  tal_file : string;
  db : option db_table;
  error : Z
}.

(** What the dispatcher and its workers do to threads and tables. *)
Inductive event :=
| Joined (file : string)
| Created (address : string)
| Destroyed (table : db_table).

(** The collaborators of the TAL parser and of the walk. *)
Variable uri_create_status : string -> Tal.uri_type -> string -> Z.
Variable base64_decode : string -> option (list Byte.byte).
Variable file_load : string -> Z * string.
Variable vrps_handle_roa_v4 : vrp -> rows -> rows.
Variable vrps_handle_roa_v6 : vrp -> rows -> rows.
Variable vrps_handle_router_key : vrp -> rows -> rows.
Variable validation_prepare_status : Tal.tal -> Z.
Variable trust_anchor : Tal.tal -> rpki_uri -> certificate vrp.
Variable trust_anchor_pubkey : Tal.tal -> rpki_uri -> pubkey_state.

(** [cache_download_alt] of the absent [cache/local_cache.c]: it is given
    the cache, the URIs of the TAL, the callback and the rows the callback
    fills, and answers with a status and the rows as the callbacks left
    them, unless a callback stopped the process. *)
Variable cache_download_alt :
  option string -> list rpki_uri -> bool ->
  (rpki_uri -> rows -> outcome (Z * rows)) -> rows -> outcome (Z * rows).

(** The table module of the absent [rtr/db]: the rows of a new table, and
    [db_table_join], which answers with a status and with the rows of the
    destination and of the source after the join. *)
Variable empty_rows : rows.
Variable join_rows : rows -> rows -> Z * rows * rows.

(** The contents of the [struct handle_tal_args] of a worker before
    [tal_init] fills it. *)
Variable uninitialised_tal : Tal.tal.

(** The TAL files the configured directory holds, and the statuses of the
    thread primitives on the thread of each. *)
Variable tal_files : list string.
Variable pthread_create_status : string -> Z.
Variable pthread_join_status : string -> Z.

Definition db_table_create (file : string) : db_table :=
  mk_table file empty_rows.

Definition db_table_join (dst src : db_table) : Z * db_table * db_table :=
  let '(status, dst_rows, src_rows) :=
    join_rows (content dst) (content src) in
  (status, mk_table (address dst) dst_rows, mk_table (address src) src_rows).

(** [db_table_destroy]; its callers hand it NULL too. *)
Definition db_table_destroy (table : option db_table) : list event :=
  match table with
  | Some t => [Destroyed t]
  | None => []
  end.

Definition status_of (r : option Tal.tal_error) : Z :=
  match r with
  | Some e => Tal.errno_of e
  | None => 0
  end.

Definition do_file_validation (thread : validation_thread)
  : outcome (validation_thread * list event) :=
  let (result, parsed) :=
    Tal.tal_init uri_create_status base64_decode file_load
      uninitialised_tal (tal_file thread) [] in
  let thread1 := mk_thread (tal_file thread) (db thread) (status_of result) in
  if negb (error thread1 =? 0) then Done (thread1, [])
  else
    let tal := Tal.the_tal parsed in
    let args_db := db_table_create (tal_file thread) in
    match
      cache_download_alt (Tal.cache tal) (Tal.uris tal) false
        (handle_tal_uri_cb vrps_handle_roa_v4 vrps_handle_roa_v6
           vrps_handle_router_key validation_prepare_status trust_anchor
           trust_anchor_pubkey tal)
        (content args_db)
    with
    | Critical => Critical
    | Done (status, filled) =>
        let args_db1 := mk_table (address args_db) filled in
        let thread2 := mk_thread (tal_file thread) (db thread) status in
        if negb (error thread2 =? 0)
        then
          Done (thread2,
                [Created (address args_db)]
                  ++ db_table_destroy (Some args_db1))
        else
          Done (mk_thread (tal_file thread) (Some args_db1) (error thread2),
                [Created (address args_db)])
    end.

(** [thread_destroy]. *)
Definition thread_destroy (thread : validation_thread) : list event :=
  db_table_destroy (db thread).

(** A [struct validation_thread *] held by the list of threads: it points
    to a live structure, or to one that has been handed to [free]. *)
Inductive thread_ptr :=
| Live (thread : validation_thread)
| Freed (thread : validation_thread).

(** [spawn_tal_thread]: the new thread is put at the head of the list
    before [pthread_create] is called; when that call fails the structure
    is freed, and the list keeps pointing to it. *)
Definition spawn_tal_thread (file : string) (threads : list thread_ptr)
  : Z * list thread_ptr :=
  let thread := mk_thread file None (- EINTR) in
  let error := pthread_create_status file in
  if negb (error =? 0) then (error, Freed thread :: threads)
  else (error, Live thread :: threads).

(** Modelled from the spec: [foreach_file] of the absent [common.c] calls
    the callback on each file of the directory and stops at the first
    call that fails. *)
Fixpoint foreach_file (files : list string)
    (cb : string -> list thread_ptr -> Z * list thread_ptr)
    (threads : list thread_ptr) : Z * list thread_ptr :=
  match files with
  | [] => (0, threads)
  | file :: rest =>
      let (status, threads1) := cb file threads in
      if negb (status =? 0) then (status, threads1)
      else foreach_file rest cb threads1
  end.

(** [pthread_join]: by the time it returns, the worker has run
    [do_file_validation] on its thread. *)
Definition pthread_join (thread : validation_thread)
  : outcome (Z * validation_thread * list event) :=
  match do_file_validation thread with
  | Critical => Critical
  | Done (finished, log) =>
      Done (pthread_join_status (tal_file thread), finished,
            log ++ [Joined (tal_file thread)])
  end.

(** The "wait for all" loop of [perform_standalone_validation], on the
    list of threads, the table accumulated so far and the error seen so
    far.  The loop reads the structure at the head of the list. *)
Fixpoint wait_for_all (threads : list thread_ptr)
    (acc : option db_table) (err : Z) (log : list event)
  : execution (option db_table * Z * list event) :=
  match threads with
  | [] => Done (acc, err, log)
  | Freed _ :: _ => Undefined
  | Live first :: rest =>
      match pthread_join first with
      | Critical => Critical
      | Done (tmperr, thread, worker_log) =>
          if negb (tmperr =? 0) then Critical
          else
            let err1 := if negb (error thread =? 0) then error thread
                        else err in
            let log1 := log ++ worker_log in
            if negb (err1 =? 0)
            then wait_for_all rest acc err1 (log1 ++ thread_destroy thread)
            else
              match acc with
              | None =>
                  (* db = thread->db; thread->db = NULL; *)
                  let moved := mk_thread (tal_file thread) None
                                 (error thread) in
                  wait_for_all rest (db thread) err1
                    (log1 ++ thread_destroy moved)
              | Some dst =>
                  match db thread with
                  | None => Critical
                  | Some src =>
                      let '(status, dst1, src1) := db_table_join dst src in
                      let drained := mk_thread (tal_file thread) (Some src1)
                                       (error thread) in
                      wait_for_all rest (Some dst1) status
                        (log1 ++ thread_destroy drained)
                  end
              end
      end
  end.

(** The clean-up loop that follows a failed [foreach_file]: each thread
    of the list, from the head on, is removed and handed to
    [thread_destroy], which reads the structure and frees it. *)
Fixpoint destroy_all (threads : list thread_ptr) (log : list event)
  : execution (list event) :=
  match threads with
  | [] => Done log
  | Freed _ :: _ => Undefined
  | Live thread :: rest => destroy_all rest (log ++ thread_destroy thread)
  end.

Definition perform_standalone_validation
  : execution (option db_table * list event) :=
  let (status, threads) := foreach_file tal_files spawn_tal_thread [] in
  if negb (status =? 0)
  then
    match destroy_all threads [] with
    | Ends (Done log) => Done (None, log)
    | Ends Critical => Critical
    | Undefined => Undefined
    end
  else
    match wait_for_all threads None 0 [] with
    | Ends Critical => Critical
    | Undefined => Undefined
    | Ends (Done (acc, err, log)) =>
        if negb (err =? 0)
        then Done (None, log ++ db_table_destroy acc)
        else Done (acc, log)
    end.

(** *** Reading the log *)

Definition created_in (log : list event) : list string :=
  flat_map (fun e => match e with Created a => [a] | _ => [] end) log.

Definition destroyed_in (log : list event) : list string :=
  flat_map (fun e => match e with Destroyed t => [address t] | _ => [] end)
    log.

Definition joined_in (log : list event) : list string :=
  flat_map (fun e => match e with Joined f => [f] | _ => [] end) log.

(** The address a table pointer holds, if it is not NULL. *)
Definition held (table : option db_table) : list string :=
  match table with
  | Some t => [address t]
  | None => []
  end.

Definition occ (l : list string) (x : string) : nat :=
  count_occ string_dec l x.

(** Every table created so far has been destroyed, or is the one
    [table] points to. *)
Definition balanced (log : list event) (table : option db_table) : Prop :=
  forall x,
    occ (created_in log) x
      = (occ (destroyed_in log) x + occ (held table) x)%nat.

(** The tables a list of finished workers hands over. *)
Definition handed_over (results : list (validation_thread * list event))
  : list db_table :=
  flat_map
    (fun r => match db (fst r) with Some t => [t] | None => [] end)
    results.

(** Joining tables one after the other into the first of them. *)
Definition join_into (acc : option db_table) (tables : list db_table)
  : option db_table :=
  fold_left
    (fun acc src =>
       match acc with
       | None => Some src
       | Some dst => Some (snd (fst (db_table_join dst src)))
       end)
    tables acc.

(** The thread structures [spawn_tal_thread] creates, in the order of
    the list. *)
Definition spawned : list validation_thread :=
  map (fun file => mk_thread file None (- EINTR)) (rev tal_files).

(** A finished worker has joined nothing, has destroyed every table it
    created except the one it hands over, and hands one over when it
    reports no error. *)
Definition worker_ok (r : validation_thread * list event) : Prop :=
  joined_in (snd r) = [] /\
  balanced (snd r) (db (fst r)) /\
  (error (fst r) = 0 -> db (fst r) <> None).

(** A thread of the list, together with what its worker leaves behind. *)
Definition finished_as (thread : validation_thread)
    (r : validation_thread * list event) : Prop :=
  do_file_validation thread = Done r /\
  pthread_join_status (tal_file thread) = 0 /\
  worker_ok r.

Lemma occ_app (a b : list string) (x : string) :
  occ (a ++ b) x = (occ a x + occ b x)%nat.
Proof. apply count_occ_app. Qed.

Lemma created_in_app (a b : list event) :
  created_in (a ++ b) = created_in a ++ created_in b.
Proof. apply flat_map_app. Qed.

Lemma destroyed_in_app (a b : list event) :
  destroyed_in (a ++ b) = destroyed_in a ++ destroyed_in b.
Proof. apply flat_map_app. Qed.

Lemma joined_in_app (a b : list event) :
  joined_in (a ++ b) = joined_in a ++ joined_in b.
Proof. apply flat_map_app. Qed.

Lemma destroy_log (table : option db_table) :
  created_in (db_table_destroy table) = [] /\
  destroyed_in (db_table_destroy table) = held table /\
  joined_in (db_table_destroy table) = [].
Proof. destruct table; repeat split; reflexivity. Qed.

(** *** What a worker leaves behind *)

Lemma do_file_validation_ok (thread : validation_thread)
    (r : validation_thread * list event) :
  db thread = None ->
  do_file_validation thread = Done r ->
  worker_ok r /\ tal_file (fst r) = tal_file thread.
Proof.
  intros Hdb. unfold do_file_validation, worker_ok, balanced.
  destruct (Tal.tal_init _ _ _ _ _ _) as [result parsed]. simpl.
  destruct (Z.eqb_spec (status_of result) 0) as [Hz|Hnz]; simpl.
  - destruct (cache_download_alt _ _ _ _ _) as [[status filled]|];
      [|discriminate].
    destruct (Z.eqb_spec status 0) as [Hs|Hs]; simpl; intros [= <-]; simpl;
      (split; [|reflexivity]); (split; [reflexivity|]); split.
    + intros x. unfold occ. simpl.
      destruct (string_dec (tal_file thread) x); reflexivity.
    + discriminate.
    + rewrite Hdb. intros x. unfold occ. simpl.
      destruct (string_dec (tal_file thread) x); reflexivity.
    + contradiction.
  - intros [= <-]. simpl. rewrite Hdb.
    (split; [|reflexivity]); (split; [reflexivity|]); split.
    + intros x. reflexivity.
    + contradiction.
Qed.

(** *** The "wait for all" loop *)

Lemma occ_nil (x : string) : occ [] x = O.
Proof. reflexivity. Qed.

Lemma created_in_destroy (thread : validation_thread) :
  created_in (thread_destroy thread) = [].
Proof. apply destroy_log. Qed.

Lemma destroyed_in_destroy (thread : validation_thread) :
  destroyed_in (thread_destroy thread) = held (db thread).
Proof. apply destroy_log. Qed.

Lemma joined_in_destroy (thread : validation_thread) :
  joined_in (thread_destroy thread) = [].
Proof. apply destroy_log. Qed.

Lemma created_in_joined (file : string) : created_in [Joined file] = [].
Proof. reflexivity. Qed.

Lemma destroyed_in_joined (file : string) : destroyed_in [Joined file] = [].
Proof. reflexivity. Qed.

Lemma joined_in_joined (file : string) : joined_in [Joined file] = [file].
Proof. reflexivity. Qed.

Ltac read_log :=
  repeat first
    [ rewrite created_in_app | rewrite destroyed_in_app
    | rewrite joined_in_app
    | rewrite created_in_destroy | rewrite destroyed_in_destroy
    | rewrite joined_in_destroy
    | rewrite created_in_joined | rewrite destroyed_in_joined
    | rewrite joined_in_joined
    | rewrite occ_app | rewrite occ_nil | rewrite app_nil_r ].

Ltac balance :=
  let x := fresh "x" in
  unfold balanced in *; intros x;
  repeat match goal with
         | H : forall _ : string, _ = _ |- _ => specialize (H x)
         end;
  read_log; simpl (db _) in *; simpl (held _) in *; read_log;
  change (occ [] x) with O in *; lia.

Lemma wait_for_all_spec (threads : list validation_thread)
    (results : list (validation_thread * list event)) :
  Forall2 finished_as threads results ->
  forall acc err log,
    balanced log acc ->
    exists acc' err' log',
      wait_for_all (map Live threads) acc err log
        = Done (acc', err', log') /\
      balanced log' acc' /\
      joined_in log' = joined_in log ++ map tal_file threads /\
      ((err <> 0 \/ Exists (fun r => error (fst r) <> 0) results) ->
       err' <> 0) /\
      (err = 0 ->
       Forall (fun r => error (fst r) = 0) results ->
       (forall a b, fst (fst (join_rows a b)) = 0) ->
       err' = 0 /\ acc' = join_into acc (handed_over results)).
Proof.
  induction 1 as [|first [thread lg] threads results
                    (Hrun & Hjoin & Hjn & Hbal & Hdb) _ IH];
    intros acc err log Hlog.
  - exists acc, err, log. simpl. rewrite app_nil_r.
    repeat split; try tauto.
    intros [He|He]; [exact He|inversion He].
  - simpl in Hjn, Hbal, Hdb. simpl wait_for_all. unfold pthread_join.
    rewrite Hrun, Hjoin. simpl.
    assert (Hex : forall P : Prop,
               Exists (fun r => error (fst r) <> 0) ((thread, lg) :: results) ->
               error thread = 0 ->
               (Exists (fun r => error (fst r) <> 0) results -> P) -> P).
    { intros P Hex He HP. inversion Hex; subst; [contradiction|auto]. }
    destruct (Z.eqb_spec (error thread) 0) as [He|He]; simpl.
    + destruct (Z.eqb_spec err 0) as [Herr|Herr]; simpl.
      * destruct acc as [dst|].
        -- destruct (db thread) as [src|] eqn:Hsrc;
             [|exfalso; apply (Hdb He); reflexivity].
           unfold db_table_join.
           destruct (join_rows (content dst) (content src))
             as [[status dst_rows] src_rows] eqn:Hrows. simpl.
           edestruct IH as (acc' & err' & log' & Hw & Hb & Hj & Hp & Hs);
             [|rewrite Hw; exists acc', err', log';
               split; [reflexivity|]; split; [exact Hb|]; split; [|split]].
           ++ balance.
           ++ rewrite Hj. read_log. rewrite Hjn. simpl.
              rewrite <- app_assoc. reflexivity.
           ++ intros [Hc|Hc]; [contradiction|].
              apply (Hex _ Hc He). intros Hr. apply Hp. right. exact Hr.
           ++ intros _ HF HJ. inversion HF; subst.
              pose proof (HJ (content dst) (content src)) as Hz.
              rewrite Hrows in Hz. simpl in Hz.
              destruct (Hs Hz) as [-> ->]; try assumption.
              split; [reflexivity|].
              unfold handed_over. simpl.
              unfold db_table_join. rewrite Hrows. reflexivity.
        -- edestruct IH as (acc' & err' & log' & Hw & Hb & Hj & Hp & Hs);
             [|rewrite Hw; exists acc', err', log';
               split; [reflexivity|]; split; [exact Hb|]; split; [|split]].
           ++ balance.
           ++ rewrite Hj. read_log. rewrite Hjn. simpl.
              rewrite <- app_assoc. reflexivity.
           ++ intros [Hc|Hc]; [contradiction|].
              apply (Hex _ Hc He). intros Hr. apply Hp. right. exact Hr.
           ++ intros _ HF HJ. inversion HF; subst.
              destruct (Hs eq_refl) as [-> ->]; try assumption.
              split; [reflexivity|].
              unfold handed_over. simpl. destruct (db thread); reflexivity.
      * edestruct IH as (acc' & err' & log' & Hw & Hb & Hj & Hp & Hs);
          [|rewrite Hw; exists acc', err', log';
            split; [reflexivity|]; split; [exact Hb|]; split; [|split]].
        -- balance.
        -- rewrite Hj. read_log. rewrite Hjn. simpl.
           rewrite <- app_assoc. reflexivity.
        -- intros _. apply Hp. left. exact Herr.
        -- intros Hc. contradiction.
    + rewrite ?(proj2 (Z.eqb_neq _ _) He). simpl.
      edestruct IH as (acc' & err' & log' & Hw & Hb & Hj & Hp & Hs);
        [|rewrite Hw; exists acc', err', log';
          split; [reflexivity|]; split; [exact Hb|]; split; [|split]].
      * balance.
      * rewrite Hj. read_log. rewrite Hjn. simpl.
        rewrite <- app_assoc. reflexivity.
      * intros _. apply Hp. left. exact He.
      * intros _ HF. inversion HF; subst. contradiction.
Qed.

Lemma foreach_file_spawns (files : list string) :
  (forall file, In file files -> pthread_create_status file = 0) ->
  forall threads,
    foreach_file files spawn_tal_thread threads =
      (0, map Live
            (map (fun file => mk_thread file None (- EINTR)) (rev files))
            ++ threads).
Proof.
  induction files as [|file files IH]; intros Hok threads; [reflexivity|].
  simpl. unfold spawn_tal_thread at 1.
  rewrite (Hok file (or_introl eq_refl)). simpl.
  rewrite IH by (intros f Hf; apply Hok; right; exact Hf).
  rewrite !map_app, <- app_assoc. reflexivity.
Qed.

Lemma finished_workers (files : list string)
    (results : list (validation_thread * list event)) :
  (forall file, In file files -> pthread_join_status file = 0) ->
  map do_file_validation
    (map (fun file => mk_thread file None (- EINTR)) files)
    = map (@Done _) results ->
  Forall2 finished_as
    (map (fun file => mk_thread file None (- EINTR)) files) results.
Proof.
  revert results. induction files as [|file files IH];
    intros [|r results] Hjoin Hrun; simpl in *; try discriminate.
  - constructor.
  - injection Hrun as Hr Hrun. constructor.
    + split; [exact Hr|]. split; [apply Hjoin; left; reflexivity|].
      apply (do_file_validation_ok (mk_thread file None (- EINTR)) eq_refl Hr).
    + apply IH; [intros f Hf; apply Hjoin; right; exact Hf|exact Hrun].
Qed.

Lemma balanced_permutation (log : list event) (table : option db_table) :
  balanced log table ->
  Permutation (created_in log) (destroyed_in log ++ held table).
Proof.
  intros Hb. apply (Permutation_count_occ string_dec). intros x.
  rewrite count_occ_app. apply Hb.
Qed.

(** *** Main results on the workers and the dispatcher *)

(** C9: when the TAL has been parsed and [cache_download_alt] answers with
    a non-zero status, whatever rows the traversals had put in the table
    by then, the worker destroys the table it created and leaves the
    [db] of its thread NULL, with the status as the thread's error. *)
Theorem C9_failed_worker_hands_over_nothing
    (thread : validation_thread) (parsed : Tal.pstate) (status : Z)
    (filled : rows) :
  db thread = None ->
  Tal.tal_init uri_create_status base64_decode file_load uninitialised_tal
    (tal_file thread) [] = (None, parsed) ->
  cache_download_alt (Tal.cache (Tal.the_tal parsed))
    (Tal.uris (Tal.the_tal parsed)) false
    (handle_tal_uri_cb vrps_handle_roa_v4 vrps_handle_roa_v6
       vrps_handle_router_key validation_prepare_status trust_anchor
       trust_anchor_pubkey (Tal.the_tal parsed))
    empty_rows = Done (status, filled) ->
  status <> 0 ->
  do_file_validation thread =
    Done (mk_thread (tal_file thread) None status,
          [Created (tal_file thread);
           Destroyed (mk_table (tal_file thread) filled)]).
Proof.
  intros Hdb Hinit Hdl Hst. unfold do_file_validation.
  rewrite Hinit. simpl. rewrite Hdl. simpl.
  rewrite (proj2 (Z.eqb_neq _ _) Hst). simpl. rewrite Hdb. reflexivity.
Qed.

(** C1: with every worker spawned and joined, if some worker ends with a
    non-zero error then [perform_standalone_validation] still joins every
    worker, returns NULL, and every table that was created has been
    destroyed; if every worker ends without error (and no join fails) it
    returns the table obtained by joining the tables of the workers one
    after the other, which is then the only table left. *)
Theorem C1_any_worker_error_discards_the_result
    (results : list (validation_thread * list event)) :
  (forall file, In file tal_files -> pthread_create_status file = 0) ->
  (forall file, In file tal_files -> pthread_join_status file = 0) ->
  map do_file_validation spawned = map (@Done _) results ->
  ((exists r, In r results /\ error (fst r) <> 0) ->
   exists log,
     perform_standalone_validation = Done (None, log) /\
     joined_in log = rev tal_files /\
     Permutation (created_in log) (destroyed_in log))
  /\
  ((forall r, In r results -> error (fst r) = 0) ->
   (forall a b, fst (fst (join_rows a b)) = 0) ->
   exists log,
     perform_standalone_validation
       = Done (join_into None (handed_over results), log) /\
     joined_in log = rev tal_files /\
     Permutation (created_in log)
       (destroyed_in log ++ held (join_into None (handed_over results)))).
Proof.
  intros Hcreate Hjoin Hrun.
  assert (Hjoin' : forall file, In file (rev tal_files) ->
                                pthread_join_status file = 0).
  { intros f Hf. apply Hjoin. apply in_rev. exact Hf. }
  pose proof (@finished_workers (rev tal_files) results Hjoin' Hrun) as Hfin.
  assert (Hnames : map tal_file spawned = rev tal_files).
  { unfold spawned. rewrite map_map. simpl. apply map_id. }
  assert (Hempty : balanced [] None) by (intros x; reflexivity).
  destruct (@wait_for_all_spec _ _ Hfin None 0 [] Hempty)
    as (acc & err & log & Hw & Hb & Hj & Hp & Hs).
  unfold perform_standalone_validation.
  rewrite (foreach_file_spawns _ Hcreate), app_nil_r. simpl.
  match goal with
  | |- context [wait_for_all ?ts None 0 []] =>
      change ts with (map Live spawned)
  end.
  fold spawned in Hw, Hj. rewrite Hw. split.
  - intros (r & Hin & Hr).
    assert (Herr : err <> 0).
    { apply Hp. right. apply Exists_exists. exists r. split; assumption. }
    rewrite (proj2 (Z.eqb_neq _ _) Herr). simpl.
    exists (log ++ db_table_destroy acc). split; [reflexivity|]. split.
    + rewrite joined_in_app, (proj2 (proj2 (destroy_log acc))), app_nil_r.
      rewrite Hj, Hnames. reflexivity.
    + rewrite created_in_app, destroyed_in_app,
        (proj1 (destroy_log acc)), (proj1 (proj2 (destroy_log acc))),
        app_nil_r.
      apply balanced_permutation, Hb.
  - intros Hall Hjoins.
    destruct (Hs eq_refl (proj2 (Forall_forall _ _) Hall) Hjoins)
      as [-> ->].
    simpl. exists log. split; [reflexivity|]. split.
    + rewrite Hj, Hnames. reflexivity.
    + apply balanced_permutation, Hb.
Qed.

(** *** Further properties of the workers and the dispatcher *)

(** X15: a worker whose TAL cannot be read ends there: the thread carries
    the non-zero code of [tal_init], no table is created and the fetcher
    is never called. *)
Theorem X15_unreadable_tal_ends_the_worker
    (thread : validation_thread) (e : Tal.tal_error) (parsed : Tal.pstate) :
  Tal.tal_init uri_create_status base64_decode file_load uninitialised_tal
    (tal_file thread) [] = (Some e, parsed) ->
  do_file_validation thread =
    Done (mk_thread (tal_file thread) (db thread) (Tal.errno_of e), []) /\
  Tal.errno_of e <> 0.
Proof.
  intros Hinit. pose proof (Tal.tal_init_error_nonzero _ _ _ _ _ _ Hinit) as He.
  split; [|exact He]. unfold do_file_validation. rewrite Hinit. simpl.
  rewrite (proj2 (Z.eqb_neq _ _) He). reflexivity.
Qed.

(** X16: the ways a worker can end.  Either it hands over a table, which is
    then the one it created, its error is 0 and nothing was destroyed; or
    it hands over nothing, its error is non-zero, and it either created no
    table or destroyed the one it created. *)
Theorem X16_worker_hands_over_a_table_or_an_error
    (thread : validation_thread)
    (r : validation_thread * list event) :
  db thread = None ->
  do_file_validation thread = Done r ->
  tal_file (fst r) = tal_file thread /\
  match db (fst r) with
  | Some table =>
      error (fst r) = 0 /\
      address table = tal_file thread /\
      snd r = [Created (tal_file thread)]
  | None =>
      error (fst r) <> 0 /\
      (snd r = [] \/
       exists filled,
         snd r = [Created (tal_file thread);
                  Destroyed (mk_table (tal_file thread) filled)])
  end.
Proof.
  intros Hdb. unfold do_file_validation.
  destruct (Tal.tal_init _ _ _ _ _ _) as [result parsed]. simpl.
  destruct (Z.eqb_spec (status_of result) 0) as [Hz|Hnz]; simpl.
  - destruct (cache_download_alt _ _ _ _ _) as [[status filled]|];
      [|discriminate].
    destruct (Z.eqb_spec status 0) as [Hs|Hs]; simpl; intros [= <-]; simpl.
    + auto.
    + rewrite Hdb. split; [reflexivity|]. split; [exact Hs|].
      right. now exists filled.
  - intros [= <-]. simpl. rewrite Hdb. auto.
Qed.

Lemma foreach_file_stops (before after : list string) (file : string) :
  (forall f, In f before -> pthread_create_status f = 0) ->
  pthread_create_status file <> 0 ->
  forall threads,
    foreach_file (before ++ file :: after) spawn_tal_thread threads =
      (pthread_create_status file,
       Freed (mk_thread file None (- EINTR))
         :: map Live
              (map (fun f => mk_thread f None (- EINTR)) (rev before))
         ++ threads).
Proof.
  intros Hok Hbad. induction before as [|b before IH]; intros threads; simpl.
  - unfold spawn_tal_thread.
    rewrite (proj2 (Z.eqb_neq _ _) Hbad). simpl.
    rewrite (proj2 (Z.eqb_neq _ _) Hbad). reflexivity.
  - unfold spawn_tal_thread at 1.
    rewrite (Hok b (or_introl eq_refl)). simpl.
    rewrite IH by (intros f Hf; apply Hok; right; exact Hf).
    rewrite !map_app, <- !app_assoc. reflexivity.
Qed.

(** X17: when [pthread_create] fails for a TAL file, no later file is
    looked at, and the list handed to the clean-up loop starts with the
    thread of the failing file, which [spawn_tal_thread] has freed,
    followed by the threads spawned before it, newest first.  The
    clean-up loop begins with that freed thread, so the dispatcher does
    not return NULL: its behaviour is undefined. *)
Theorem X17_spawn_failure_reaches_a_freed_thread
    (before after : list string) (file : string) :
  tal_files = before ++ file :: after ->
  (forall f, In f before -> pthread_create_status f = 0) ->
  pthread_create_status file <> 0 ->
  foreach_file tal_files spawn_tal_thread [] =
    (pthread_create_status file,
     Freed (mk_thread file None (- EINTR))
       :: map Live
            (map (fun f => mk_thread f None (- EINTR)) (rev before))) /\
  perform_standalone_validation = Undefined.
Proof.
  intros Hfiles Hok Hbad.
  pose proof (foreach_file_stops before after Hok Hbad []) as Hrun.
  rewrite <- Hfiles, app_nil_r in Hrun.
  split; [exact Hrun|].
  unfold perform_standalone_validation. rewrite Hrun.
  rewrite (proj2 (Z.eqb_neq _ _) Hbad). reflexivity.
Qed.

Lemma wait_for_all_failed_join (threads : list validation_thread) :
  Exists (fun t => pthread_join_status (tal_file t) <> 0) threads ->
  forall acc err log, wait_for_all (map Live threads) acc err log = Critical.
Proof.
  induction threads as [|first rest IH]; intros Hex acc err log;
    [inversion Hex|].
  simpl. unfold pthread_join.
  destruct (do_file_validation first) as [[thread worker_log]|];
    [|reflexivity].
  destruct (Z.eqb_spec (pthread_join_status (tal_file first)) 0)
    as [Hjoin|Hjoin]; simpl; [|reflexivity].
  assert (Hrest : Exists (fun t => pthread_join_status (tal_file t) <> 0) rest)
    by (inversion Hex; subst; [contradiction|assumption]).
  destruct (negb (_ =? 0)); [now apply IH|].
  destruct acc as [dst|]; [|now apply IH].
  destruct (db thread) as [src|]; [|reflexivity].
  destruct (db_table_join dst src) as [[status dst1] src1]. now apply IH.
Qed.

(** X18: once every thread has been spawned, a [pthread_join] that fails on
    any of them stops the process, however the workers ended and wherever
    in the list the thread is. *)
Theorem X18_failed_join_stops_the_process (file : string) :
  (forall f, In f tal_files -> pthread_create_status f = 0) ->
  In file tal_files ->
  pthread_join_status file <> 0 ->
  perform_standalone_validation = Critical.
Proof.
  intros Hcreate Hin Hjoin. unfold perform_standalone_validation.
  rewrite (foreach_file_spawns _ Hcreate), app_nil_r. simpl.
  rewrite wait_for_all_failed_join; [reflexivity|].
  apply Exists_exists. exists (mk_thread file None (- EINTR)).
  split; [|exact Hjoin].
  apply in_map_iff. exists file. split; [reflexivity|].
  apply -> in_rev. exact Hin.
Qed.

(** X19: no run of the dispatcher that comes to an end leaks a table.  With
    every thread spawned and joined and every worker finished, the
    dispatcher returns, every worker has been joined in list order, and
    the tables created are exactly the tables destroyed plus the one
    returned; a table is returned only if no worker reported an error. *)
Theorem X19_dispatch_never_leaks
    (results : list (validation_thread * list event)) :
  (forall file, In file tal_files -> pthread_create_status file = 0) ->
  (forall file, In file tal_files -> pthread_join_status file = 0) ->
  map do_file_validation spawned = map (@Done _) results ->
  exists table log,
    perform_standalone_validation = Done (table, log) /\
    joined_in log = rev tal_files /\
    Permutation (created_in log) (destroyed_in log ++ held table) /\
    (table <> None -> Forall (fun r => error (fst r) = 0) results).
Proof.
  intros Hcreate Hjoin Hrun.
  assert (Hjoin' : forall file, In file (rev tal_files) ->
                                pthread_join_status file = 0).
  { intros f Hf. apply Hjoin. apply in_rev. exact Hf. }
  pose proof (@finished_workers (rev tal_files) results Hjoin' Hrun) as Hfin.
  assert (Hnames : map tal_file spawned = rev tal_files).
  { unfold spawned. rewrite map_map. simpl. apply map_id. }
  assert (Hempty : balanced [] None) by (intros x; reflexivity).
  destruct (@wait_for_all_spec _ _ Hfin None 0 [] Hempty)
    as (acc & err & log & Hw & Hb & Hj & Hp & _).
  unfold perform_standalone_validation.
  rewrite (foreach_file_spawns _ Hcreate), app_nil_r. simpl.
  match goal with
  | |- context [wait_for_all ?ts None 0 []] =>
      change ts with (map Live spawned)
  end.
  fold spawned in Hw, Hj. rewrite Hw.
  destruct (Z.eqb_spec err 0) as [Herr|Herr]; simpl.
  - exists acc, log. split; [reflexivity|]. split; [|split].
    + rewrite Hj, Hnames. reflexivity.
    + apply balanced_permutation, Hb.
    + intros _. apply Forall_forall. intros r Hr.
      destruct (Z.eq_dec (error (fst r)) 0) as [Hz|Hnz]; [exact Hz|].
      exfalso. apply Hp; [|exact Herr]. right.
      apply Exists_exists. exists r. split; assumption.
  - exists None, (log ++ db_table_destroy acc).
    split; [reflexivity|]. split; [|split].
    + rewrite joined_in_app, (proj2 (proj2 (destroy_log acc))), app_nil_r.
      rewrite Hj, Hnames. reflexivity.
    + rewrite created_in_app, destroyed_in_app,
        (proj1 (destroy_log acc)), (proj1 (proj2 (destroy_log acc))),
        !app_nil_r.
      apply balanced_permutation, Hb.
    + intros H. now contradiction H.
Qed.

End Dispatcher.

(** *** A concrete run *)

Definition example_file (path : string) : Z * string :=
  if String.eqb path "tals/a.tal"
  then (0, Tal.unlines ["rsync://a.example/ta.cer"; ""; "AAAA"]%string
             EmptyString)
  else if String.eqb path "tals/b.tal"
  then (0, Tal.unlines ["rsync://b.example/ta.cer"; ""; "BBBB"]%string
             EmptyString)
  else if String.eqb path "tals/c.tal"
  then (0, Tal.unlines ["rsync://c.example/ta.cer"; ""; "CCCC"]%string
             EmptyString)
  else (- ENOENT, EmptyString).

(** The trust anchors of a and b validate; the one of c hands a router key
    to the handler and then fails. *)
Definition example_anchor (tal : Tal.tal) (uri : rpki_uri) : certificate Z :=
  if String.eqb (Tal.uri_global uri) "rsync://a.example/ta.cer"
  then Certificate uri 0 [ROA_V4 64496] []
  else if String.eqb (Tal.uri_global uri) "rsync://b.example/ta.cer"
  then Certificate uri 0 [ROA_V6 64497]
         [Certificate (example_uri "rsync://b.example/ca.cer") (- 22) [] []]
  else Certificate uri 71 [ROUTER_KEY 64498] [].

Definition accepting_decoder : string -> option (list Byte.byte) :=
  fun _ => Some [].

(** A fetcher that visits the URIs in order until a visit succeeds. *)
Fixpoint example_fetcher (cache : option string) (uris : list rpki_uri)
    (is_ta : bool) (visit : rpki_uri -> list Z -> outcome (Z * list Z))
    (rows : list Z) : outcome (Z * list Z) :=
  match uris with
  | [] => Done (- 3, rows)
  | uri :: rest =>
      match visit uri rows with
      | Critical => Critical
      | Done (status, rows1) =>
          if status =? 0 then Done (0, rows1)
          else example_fetcher cache rest is_ta visit rows1
      end
  end.

Definition example_join (dst src : list Z) : Z * list Z * list Z :=
  (0, dst ++ src, []).

Definition example_worker (file : string)
  : outcome (validation_thread (list Z) * list (event (list Z))) :=
  do_file_validation Tal.always_created accepting_decoder example_file
    insert insert insert (fun _ => 0) example_anchor (fun _ _ => PKS_VALID)
    example_fetcher [] Tal.example_tal (mk_thread file None (- EINTR)).

Definition example_dispatch (files : list string)
  : execution (option (db_table (list Z)) * list (event (list Z))) :=
  perform_standalone_validation Tal.always_created accepting_decoder
    example_file insert insert insert (fun _ => 0) example_anchor
    (fun _ _ => PKS_VALID) example_fetcher [] example_join Tal.example_tal
    files (fun _ => 0) (fun _ => 0).

Definition three_tals : list string :=
  ["tals/a.tal"; "tals/c.tal"; "tals/b.tal"]%string.

Definition two_tals : list string := ["tals/a.tal"; "tals/b.tal"]%string.

Definition finished (file : string)
  : validation_thread (list Z) * list (event (list Z)) :=
  match example_worker file with
  | Done r => r
  | Critical => (mk_thread file None (- EINTR), [])
  end.

Example worker_of_c :
  example_worker "tals/c.tal" =
    Done (mk_thread "tals/c.tal" None (- 3),
          [Created (list Z) "tals/c.tal";
           Destroyed (mk_table "tals/c.tal" [64498])]).
Proof. reflexivity. Qed.

Example dispatch_with_failure :
  example_dispatch three_tals =
    Done (None,
          [Created (list Z) "tals/b.tal"; Joined (list Z) "tals/b.tal";
           Created (list Z) "tals/c.tal";
           Destroyed (mk_table "tals/c.tal" [64498]);
           Joined (list Z) "tals/c.tal";
           Created (list Z) "tals/a.tal"; Joined (list Z) "tals/a.tal";
           Destroyed (mk_table "tals/a.tal" [64496]);
           Destroyed (mk_table "tals/b.tal" [64497])]).
Proof. reflexivity. Qed.

Example dispatch_without_failure :
  example_dispatch two_tals =
    Done (Some (mk_table "tals/b.tal" [64497; 64496]),
          [Created (list Z) "tals/b.tal"; Joined (list Z) "tals/b.tal";
           Created (list Z) "tals/a.tal"; Joined (list Z) "tals/a.tal";
           Destroyed (mk_table "tals/a.tal" [])]).
Proof. reflexivity. Qed.

Lemma C9_witness :
  example_worker "tals/c.tal" =
    Done (mk_thread "tals/c.tal" None (- 3),
          [Created (list Z) "tals/c.tal";
           Destroyed (mk_table "tals/c.tal" [64498])]).
Proof.
  apply (@C9_failed_worker_hands_over_nothing Z (list Z)
           Tal.always_created accepting_decoder example_file
           insert insert insert (fun _ => 0) example_anchor
           (fun _ _ => PKS_VALID) example_fetcher [] Tal.example_tal
           (mk_thread "tals/c.tal" None (- EINTR))
           (snd (Tal.tal_init Tal.always_created accepting_decoder
                   example_file Tal.example_tal "tals/c.tal" []))
           (- 3) [64498]).
  - reflexivity.
  - reflexivity.
  - reflexivity.
  - discriminate.
Defined.

Lemma C1_witness :
  (exists log,
      example_dispatch three_tals = Done (None, log) /\
      joined_in log = rev three_tals /\
      Permutation (created_in log) (destroyed_in log))
  /\
  (exists log,
      example_dispatch two_tals
        = Done (Some (mk_table "tals/b.tal" [64497; 64496]), log) /\
      joined_in log = rev two_tals /\
      Permutation (created_in log) (destroyed_in log ++ ["tals/b.tal"%string])).
Proof.
  split.
  - apply (proj1
             (@C1_any_worker_error_discards_the_result Z (list Z)
                Tal.always_created accepting_decoder example_file
                insert insert insert (fun _ => 0) example_anchor
                (fun _ _ => PKS_VALID) example_fetcher [] example_join
                Tal.example_tal three_tals (fun _ => 0) (fun _ => 0)
                (map finished (rev three_tals))
                (fun _ _ => eq_refl) (fun _ _ => eq_refl) eq_refl)).
    exists (finished "tals/c.tal").
    split; [right; left; reflexivity|discriminate].
  - apply (proj2
             (@C1_any_worker_error_discards_the_result Z (list Z)
                Tal.always_created accepting_decoder example_file
                insert insert insert (fun _ => 0) example_anchor
                (fun _ _ => PKS_VALID) example_fetcher [] example_join
                Tal.example_tal two_tals (fun _ => 0) (fun _ => 0)
                (map finished (rev two_tals))
                (fun _ _ => eq_refl) (fun _ _ => eq_refl) eq_refl)).
    + intros r [<-|[<-|[]]]; reflexivity.
    + intros a b. reflexivity.
Defined.

(** The dispatcher of the example with the statuses of the thread
    primitives left open. *)
Definition example_dispatch_with (files : list string)
    (create_status join_status : string -> Z)
  : execution (option (db_table (list Z)) * list (event (list Z))) :=
  perform_standalone_validation Tal.always_created accepting_decoder
    example_file insert insert insert (fun _ => 0) example_anchor
    (fun _ _ => PKS_VALID) example_fetcher [] example_join Tal.example_tal
    files create_status join_status.

Definition fails_on (file : string) (status : Z) (f : string) : Z :=
  if String.eqb f file then status else 0.

Lemma X15_witness :
  example_worker "tals/missing.tal" =
    Done (mk_thread "tals/missing.tal" None (- ENOENT), []) /\
  - ENOENT <> 0.
Proof.
  apply (@X15_unreadable_tal_ends_the_worker Z (list Z)
           Tal.always_created accepting_decoder example_file
           insert insert insert (fun _ => 0) example_anchor
           (fun _ _ => PKS_VALID) example_fetcher [] Tal.example_tal
           (mk_thread "tals/missing.tal" None (- EINTR))
           (Tal.ERR_file_load (- ENOENT))
           (Tal.mk_pstate Tal.example_tal [])).
  reflexivity.
Defined.

Lemma X16_witness :
  (tal_file (fst (finished "tals/a.tal")) = "tals/a.tal"%string /\
   error (fst (finished "tals/a.tal")) = 0 /\
   "tals/a.tal"%string = "tals/a.tal"%string /\
   snd (finished "tals/a.tal") = [Created (list Z) "tals/a.tal"])
  /\
  (tal_file (fst (finished "tals/c.tal")) = "tals/c.tal"%string /\
   error (fst (finished "tals/c.tal")) <> 0 /\
   (snd (finished "tals/c.tal") = [] \/
    exists filled,
      snd (finished "tals/c.tal")
      = [Created (list Z) "tals/c.tal";
         Destroyed (mk_table "tals/c.tal" filled)])).
Proof.
  split.
  - apply (@X16_worker_hands_over_a_table_or_an_error Z (list Z)
             Tal.always_created accepting_decoder example_file
             insert insert insert (fun _ => 0) example_anchor
             (fun _ _ => PKS_VALID) example_fetcher [] Tal.example_tal
             (mk_thread "tals/a.tal" None (- EINTR))
             (finished "tals/a.tal") eq_refl eq_refl).
  - apply (@X16_worker_hands_over_a_table_or_an_error Z (list Z)
             Tal.always_created accepting_decoder example_file
             insert insert insert (fun _ => 0) example_anchor
             (fun _ _ => PKS_VALID) example_fetcher [] Tal.example_tal
             (mk_thread "tals/c.tal" None (- EINTR))
             (finished "tals/c.tal") eq_refl eq_refl).
Defined.

Lemma X17_witness :
  foreach_file three_tals
    (spawn_tal_thread (rows := list Z) (fails_on "tals/c.tal" 11)) []
  = (11,
     [Freed (mk_thread "tals/c.tal" None (- EINTR));
      Live (mk_thread "tals/a.tal" None (- EINTR))]) /\
  example_dispatch_with three_tals (fails_on "tals/c.tal" 11) (fun _ => 0)
    = Undefined.
Proof.
  apply (@X17_spawn_failure_reaches_a_freed_thread Z (list Z)
           Tal.always_created accepting_decoder example_file
           insert insert insert (fun _ => 0) example_anchor
           (fun _ _ => PKS_VALID) example_fetcher [] example_join
           Tal.example_tal three_tals (fails_on "tals/c.tal" 11)
           (fun _ => 0)
           ["tals/a.tal"%string] ["tals/b.tal"%string] "tals/c.tal").
  - reflexivity.
  - intros f [<-|[]]. reflexivity.
  - discriminate.
Defined.

Lemma X18_witness :
  example_dispatch_with three_tals (fun _ => 0) (fails_on "tals/c.tal" 3)
    = Critical.
Proof.
  apply (@X18_failed_join_stops_the_process Z (list Z)
           Tal.always_created accepting_decoder example_file
           insert insert insert (fun _ => 0) example_anchor
           (fun _ _ => PKS_VALID) example_fetcher [] example_join
           Tal.example_tal three_tals (fun _ => 0)
           (fails_on "tals/c.tal" 3) "tals/c.tal").
  - reflexivity.
  - right; left; reflexivity.
  - discriminate.
Defined.

Lemma X19_witness :
  exists table log,
    example_dispatch three_tals = Done (table, log) /\
    joined_in log = rev three_tals /\
    Permutation (created_in log) (destroyed_in log ++ held table) /\
    (table <> None ->
     Forall (fun r => error (fst r) = 0) (map finished (rev three_tals))).
Proof.
  apply (@X19_dispatch_never_leaks Z (list Z)
           Tal.always_created accepting_decoder example_file
           insert insert insert (fun _ => 0) example_anchor
           (fun _ _ => PKS_VALID) example_fetcher [] example_join
           Tal.example_tal three_tals (fun _ => 0) (fun _ => 0)
           (map finished (rev three_tals))
           (fun _ _ => eq_refl) (fun _ _ => eq_refl) eq_refl).
Defined.

End Dispatch.
